(** * RedBeat: a Redis-backed periodic-task scheduler

    A shallow embedding of [redbeat/schedulers.py]: the periodic-task
    record and its store operations, the schedule entry with its run
    state, and the scheduler that keeps the due-queue index in step with
    the pending-deletes and pending-updates sets.

    The Redis server is modelled as an explicit state (keys, the two
    pending sets, the sorted index), every command as a state-passing
    function that may raise [ResponseError], and the Python code as
    computations in a small state-and-exception monad. *)

From Stdlib Require Import ZArith QArith Qround String Ascii List.
From stdpp Require Import gmap strings list fin_maps.

Set Warnings "-register-all".
Set Default Proof Using "Type".
Local Open Scope string_scope.
Local Open Scope Z_scope.

(** ** Python values *)

(** The values that travel through JSON: [None], booleans, numbers,
    strings, datetimes (handled by the date-aware encoder), lists and
    dictionaries with string keys. *)
Inductive pyval :=
| PNone
| PBool (b : bool)
| PInt (z : Z)
| PFloat (q : Q)
| PStr (s : string)
| PDate (t : Z)                       (* microseconds since the epoch *)
| PList (l : list pyval)
| PDict (d : gmap string pyval).

(** Python truthiness ([if v:], [not v]). *)
Definition truthy (v : pyval) : bool :=
  match v with
  | PNone => false
  | PBool b => b
  | PInt z => negb (z =? 0)
  | PFloat q => negb (Qeq_bool q 0)
  | PStr s => negb (String.eqb s "")
  | PDate _ => true
  | PList l => match l with [] => false | _ => true end
  | PDict d => negb (bool_decide (d = ∅))
  end.

(** [sub in s] on strings. *)
Fixpoint contains (sub s : string) : bool :=
  String.prefix sub s ||
  match s with
  | EmptyString => false
  | String _ s' => contains sub s'
  end.

(** [s.replace(old, '')]: every non-overlapping occurrence of [old] is
    dropped, scanning from the left; [skip] counts the characters of the
    occurrence that is being dropped. *)
Fixpoint remove_all_from (old : string) (skip : nat) (s : string) : string :=
  match s with
  | EmptyString => EmptyString
  | String c s' =>
      match skip with
      | S k => remove_all_from old k s'
      | O =>
          if String.prefix old s
          then remove_all_from old (Nat.pred (String.length old)) s'
          else String c (remove_all_from old O s')
      end
  end.

Definition remove_all (old s : string) : string :=
  if String.eqb old "" then s else remove_all_from old O s.

(** ** Exceptions and results *)

Inductive exn :=
| ResponseError (message : string)    (* redis.exceptions.ResponseError *)
| KeyError (key : string)
| ValidationError (msg : string)
| UnboundLocalError (var : string)
| ValueError (msg : string)
| TypeError (msg : string)
| AttributeError (msg : string)
| Exception (msg : string).

Inductive result (A : Type) :=
| Ok (a : A)
| Raise (e : exn).
Arguments Ok {A} a.
Arguments Raise {A} e.

Definition is_KeyError (e : exn) : bool :=
  match e with KeyError _ => true | _ => false end.

(** ** The serialization helper *)

(** Modelled from the spec: the date-aware serialization helper (module
    [decoder], classes [DateTimeEncoder] and [DateTimeDecoder], imported
    by the scheduler but not part of the sources at hand).  The spec
    treats it as an opaque marshal/unmarshal pair that preserves the
    encoded mapping, so a stored text is either the marshalled form of a
    value or some other text that does not decode. *)
Inductive wire :=
| Marshal (v : pyval)
| Text (s : string).

Definition json_dumps (v : pyval) : wire := Marshal v.

Definition json_loads (raw : wire) : result pyval :=
  match raw with
  | Marshal v => Ok v
  | Text _ => Raise (ValueError "No JSON object could be decoded")
  end.

(** Truthiness of what [hget]/[get] return: [None] and the empty string
    are false; the marshalled form of a value is never empty. *)
Definition raw_truthy (raw : option wire) : bool :=
  match raw with
  | None => false
  | Some (Marshal _) => true
  | Some (Text s) => negb (String.eqb s "")
  end.

(** ** Schedule policies and the celery schedules they build *)

Record Interval := mkInterval { every : pyval; period : pyval }.

Record Crontab := mkCrontab {
  minute : pyval; hour : pyval; day_of_week : pyval;
  day_of_month : pyval; month_of_year : pyval }.

(** An attribute of a task object: a plain value or a policy object. *)
Inductive attr :=
| AVal (v : pyval)
| AInterval (i : Interval)
| ACrontab (c : Crontab).

Definition attr_truthy (a : attr) : bool :=
  match a with
  | AVal v => truthy v
  | AInterval _ | ACrontab _ => true     (* plain objects are true *)
  end.

(** The objects of [celery.schedules]: an interval schedule carries its
    [run_every] (a timedelta, in microseconds); a crontab keeps the field
    specifications it was built from. *)
Inductive celery_schedules :=
| celery_schedule (run_every : Z)
| celery_crontab (_orig_minute _orig_hour _orig_day_of_week
                  _orig_day_of_month _orig_month_of_year : pyval).

(** [datetime.timedelta] called with the single keyword [period] set to
    [every]; the result is in microseconds. *)
Definition timedelta_unit (period : string) : option Z :=
  if String.eqb period "days" then Some 86400000000
  else if String.eqb period "seconds" then Some 1000000
  else if String.eqb period "microseconds" then Some 1
  else if String.eqb period "milliseconds" then Some 1000
  else if String.eqb period "minutes" then Some 60000000
  else if String.eqb period "hours" then Some 3600000000
  else if String.eqb period "weeks" then Some 604800000000
  else None.

Definition timedelta (period every : pyval) : result Z :=
  match period with
  | PStr p =>
      match timedelta_unit p with
      | Some u =>
          match every with
          | PInt z => Ok (z * u)
          | PBool b => Ok (if b then u else 0)
          | PFloat q => Ok (Qfloor (q * inject_Z u + (1 # 2)))
          | _ => Raise (TypeError "unsupported type for timedelta component")
          end
      | None => Raise (TypeError "invalid keyword argument for timedelta")
      end
  | _ => Raise (TypeError "keywords must be strings")
  end.

(** The [schedule] value of a configured entry: a celery schedule object
    or a plain value (a number of seconds, a timedelta, ...). *)
Inductive conf_schedule :=
| SObj (s : celery_schedules)
| SVal (v : pyval).

(** A configured entry ([CELERYBEAT_SCHEDULE[name]]): its [schedule], if
    the key is there, and its other keys. *)
Record conf_entry := mkConf {
  conf_schedule_value : option conf_schedule;
  conf_fields : gmap string pyval }.

(** [timedelta.total_seconds()]. *)
Definition total_seconds (td : Z) : Q := td # 1000000.

(** ** The Redis server and the logger *)

Inductive rvalue :=
| RString (v : wire)                  (* a bare key: the legacy record shape *)
| RHash (h : gmap string wire).

Inductive set_key := REDBEAT_DELETES_KEY | REDBEAT_UPDATES_KEY.
Inductive zset_key := REDBEAT_SCHEDULE_KEY.

(** The formatted text of a task, [unicode(task)], is kept symbolic: the
    name it starts with. *)
Inductive log_record :=
| log_info (msg : string)
| log_debug (fmt : string) (arg : string)
| log_debug_task (text : string)
| log_error (fmt : string) (name : string) (exc : exn).

(** The state the code runs against.  The record keys, the two pending
    sets and the sorted index are kept in separate fields: record names
    are taken to be distinct from the three internal keys.  [rdb_fault]
    is a server-side condition (loading, out of memory, read-only
    replica, ...) under which every command is answered with an error
    reply carrying that text. *)
Record world := mkWorld {
  rdb_keys : gmap string rvalue;
  rdb_deletes : gset string;
  rdb_updates : gset string;
  rdb_schedule : gmap string Z;
  rdb_fault : option string;
  logger : list log_record;
  clock : Z                           (* the current time, microseconds *)
}.

(** ** The state-and-exception monad *)

Definition M (A : Type) : Type := world -> result A * world.

Definition ret {A} (a : A) : M A := fun w => (Ok a, w).
Definition raise {A} (e : exn) : M A := fun w => (Raise e, w).
Definition bind {A B} (c : M A) (k : A -> M B) : M B :=
  fun w => match c w with
           | (Ok a, w') => k a w'
           | (Raise e, w') => (Raise e, w')
           end.
Definition lift {A} (r : result A) : M A := fun w => (r, w).

(** [try: c  except <handled>: h]. *)
Definition try_except {A} (c : M A) (handled : exn -> bool)
    (h : exn -> M A) : M A :=
  fun w => match c w with
           | (Ok a, w') => (Ok a, w')
           | (Raise e, w') => if handled e then h e w' else (Raise e, w')
           end.

Declare Scope py_scope.
Delimit Scope py_scope with py.
Notation "x <- c ;; k" := (bind c (fun x => k))
  (at level 100, c at next level, right associativity) : py_scope.
Notation "c ;;; k" := (bind c (fun _ => k))
  (at level 100, right associativity) : py_scope.
Local Open Scope py_scope.

Definition WRONGTYPE : string :=
  "WRONGTYPE Operation against a key holding the wrong kind of value".

(** Every command first meets the server condition. *)
Definition command {A} (body : M A) : M A :=
  fun w => match rdb_fault w with
           | Some msg => (Raise (ResponseError msg), w)
           | None => body w
           end.

Definition set_keys (f : gmap string rvalue -> gmap string rvalue) (w : world) : world :=
  mkWorld (f (rdb_keys w)) (rdb_deletes w) (rdb_updates w) (rdb_schedule w)
          (rdb_fault w) (logger w) (clock w).

Definition get_set (k : set_key) (w : world) : gset string :=
  match k with
  | REDBEAT_DELETES_KEY => rdb_deletes w
  | REDBEAT_UPDATES_KEY => rdb_updates w
  end.

Definition put_set (k : set_key) (s : gset string) (w : world) : world :=
  match k with
  | REDBEAT_DELETES_KEY =>
      mkWorld (rdb_keys w) s (rdb_updates w) (rdb_schedule w)
              (rdb_fault w) (logger w) (clock w)
  | REDBEAT_UPDATES_KEY =>
      mkWorld (rdb_keys w) (rdb_deletes w) s (rdb_schedule w)
              (rdb_fault w) (logger w) (clock w)
  end.

Definition set_schedule (f : gmap string Z -> gmap string Z) (w : world) : world :=
  mkWorld (rdb_keys w) (rdb_deletes w) (rdb_updates w) (f (rdb_schedule w))
          (rdb_fault w) (logger w) (clock w).

Definition emit (r : log_record) : M unit :=
  fun w => (Ok tt,
            mkWorld (rdb_keys w) (rdb_deletes w) (rdb_updates w) (rdb_schedule w)
                    (rdb_fault w) (logger w ++ [r]) (clock w)).

Module rdb.

Definition hget (name field : string) : M (option wire) :=
  command (fun w =>
    match rdb_keys w !! name with
    | None => (Ok None, w)
    | Some (RHash h) => (Ok (h !! field), w)
    | Some (RString _) => (Raise (ResponseError WRONGTYPE), w)
    end).

Definition get (name : string) : M (option wire) :=
  command (fun w =>
    match rdb_keys w !! name with
    | None => (Ok None, w)
    | Some (RString v) => (Ok (Some v), w)
    | Some (RHash _) => (Raise (ResponseError WRONGTYPE), w)
    end).

Definition hset (name field : string) (v : wire) : M unit :=
  command (fun w =>
    match rdb_keys w !! name with
    | None => (Ok tt, set_keys (insert name (RHash {[ field := v ]})) w)
    | Some (RHash h) => (Ok tt, set_keys (insert name (RHash (<[ field := v ]> h))) w)
    | Some (RString _) => (Raise (ResponseError WRONGTYPE), w)
    end).

Definition delete (name : string) : M unit :=
  command (fun w => (Ok tt, set_keys (base.delete name) w)).

Definition sadd (k : set_key) (member : string) : M unit :=
  command (fun w => (Ok tt, put_set k ({[ member ]} ∪ get_set k w) w)).

Definition srem (k : set_key) (member : string) : M unit :=
  command (fun w => (Ok tt, put_set k (get_set k w ∖ {[ member ]}) w)).

Definition scard (k : set_key) : M nat :=
  command (fun w => (Ok (size (get_set k w)), w)).

(** [spop] removes and returns some member, [None] on the empty set. *)
Definition spop (k : set_key) : M (option string) :=
  command (fun w =>
    match elements (get_set k w) with
    | [] => (Ok None, w)
    | x :: _ => (Ok (Some x), put_set k (get_set k w ∖ {[ x ]}) w)
    end).

Definition zadd (k : zset_key) (score : Z) (member : string) : M unit :=
  command (fun w => (Ok tt, set_schedule (insert member score) w)).

Definition zrem (k : zset_key) (member : string) : M unit :=
  command (fun w => (Ok tt, set_schedule (base.delete member) w)).

End rdb.

(** Pure code that may raise runs in [result]. *)
Definition rbind {A B} (r : result A) (k : A -> result B) : result B :=
  match r with
  | Ok a => k a
  | Raise e => Raise e
  end.

Notation "'let?' x := c 'in' k" := (rbind c (fun x => k))
  (at level 100, x name, c at next level, right associativity) : py_scope.

(** [v[k]] for a string key. *)
Definition subscript (v : pyval) (k : string) : result pyval :=
  match v with
  | PDict d =>
      match d !! k with
      | Some x => Ok x
      | None => Raise (KeyError k)
      end
  | _ => Raise (TypeError "indices must be integers")
  end.

(** [d.get(k)]. *)
Definition dict_get (d : gmap string pyval) (k : string) : pyval :=
  match d !! k with
  | Some v => v
  | None => PNone
  end.

Section Redbeat.

(** [current_app.conf.REDBEAT_KEY_PREFIX]. *)
Variable REDBEAT_KEY_PREFIX : string.

(** celery's [remaining_estimate] of a schedule, given [last_run_at] and
    the current time; the result is a timedelta in microseconds. *)
Variable remaining_estimate : celery_schedules -> Z -> Z -> Z.

(** celery's [ScheduleEntry.is_due], given the entry's schedule and
    [last_run_at] and the current time. *)
Variable celery_is_due : celery_schedules -> pyval -> Z -> bool * Q.

(** celery's [maybe_schedule], applied to the configured schedule. *)
Variable maybe_schedule : conf_schedule -> conf_schedule.

(** [time.mktime(dt.timetuple())]: whole seconds, microseconds dropped
    (the local time zone is taken to be UTC). *)
Definition to_timestamp (dt : Z) : Z := dt / 1000000.

(** *** PeriodicTask *)

(** A task object is its instance dictionary; attributes that were
    never assigned fall back to the class. *)
Record PeriodicTask := mkTask { dict : gmap string attr }.

Definition class_attrs : gmap string pyval :=
  list_to_map
    [ ("name", PNone); ("task", PNone); ("type_", PNone);
      ("interval", PNone); ("crontab", PNone);
      ("args", PList []); ("kwargs", PDict ∅);
      ("queue", PNone); ("exchange", PNone); ("routing_key", PNone);
      ("expires", PNone); ("enabled", PBool true);
      ("date_changed", PNone); ("description", PNone);
      ("no_changes", PBool false) ].

Definition getattr (self : PeriodicTask) (k : string) : attr :=
  match dict self !! k with
  | Some a => a
  | None => AVal (default PNone (class_attrs !! k))
  end.

(** The name of a task or entry as a Redis key. *)
Definition as_key (a : attr) : result string :=
  match a with
  | AVal (PStr s) => Ok s
  | _ => Raise (TypeError "name is not a string")
  end.

Definition PeriodicTask_init (name task : pyval) (schedule : attr)
    (key : pyval) (enabled : pyval) (task_args task_kwargs : pyval)
    : result PeriodicTask :=
  let d : gmap string attr := {[ "task" := AVal task ]} in
  let d := <[ "enabled" := AVal enabled ]> d in
  let d := match schedule with
           | AInterval _ => <[ "interval" := schedule ]> d
           | _ => d
           end in
  let d := match schedule with
           | ACrontab _ => <[ "crontab" := schedule ]> d
           | _ => d
           end in
  let d := <[ "args" := AVal task_args ]> d in
  let d := <[ "kwargs" := AVal task_kwargs ]> d in
  match name with
  | PStr n =>
      if negb (truthy key)
      then Ok (mkTask (<[ "name" := AVal (PStr (REDBEAT_KEY_PREFIX ++ n)) ]> d))
      else match key with
           | PStr k =>
               Ok (mkTask (<[ "name" :=
                     AVal (PStr (REDBEAT_KEY_PREFIX ++ n ++ ":" ++ k)) ]> d))
           | _ => Raise (TypeError "cannot concatenate")
           end
  | _ => Raise (TypeError "cannot concatenate")
  end.

(** [Interval.schedule] and [Crontab.schedule]; a plain value has no
    such attribute. *)
Definition policy_schedule (a : attr) : result celery_schedules :=
  match a with
  | AInterval i =>
      let? td := timedelta (period i) (every i) in
      Ok (celery_schedule td)
  | ACrontab c =>
      Ok (celery_crontab (minute c) (hour c) (day_of_week c)
                         (day_of_month c) (month_of_year c))
  | AVal _ => Raise (AttributeError "schedule")
  end.

(** [obj.__dict__] of a policy object. *)
Definition policy_dict (a : attr) : result pyval :=
  match a with
  | AInterval i =>
      Ok (PDict (<[ "every" := every i ]> {[ "period" := period i ]}))
  | ACrontab c =>
      Ok (PDict (<[ "minute" := minute c ]>
                (<[ "hour" := hour c ]>
                (<[ "day_of_week" := day_of_week c ]>
                (<[ "day_of_month" := day_of_month c ]>
                 {[ "month_of_year" := month_of_year c ]})))))
  | AVal _ => Raise (AttributeError "__dict__")
  end.

(** The keys of the configured namespace, internal keys filtered out. *)
Definition PeriodicTask_get_all : M (list string) :=
  command (fun w =>
    let tasks :=
      List.filter (String.prefix REDBEAT_KEY_PREFIX)
                  (map fst (map_to_list (rdb_keys w))) in
    let tasks :=
      List.filter
        (fun t => negb (contains ":" (remove_all REDBEAT_KEY_PREFIX t)))
        tasks in
    (Ok tasks, w)).

Definition is_ResponseError (e : exn) : bool :=
  match e with ResponseError _ => true | _ => false end.

Definition PeriodicTask_load (task_name : string) : M pyval :=
  raw <- try_except (rdb.hget task_name "periodic") is_ResponseError
           (fun exc =>
              match exc with
              | ResponseError message =>
                  if contains "WRONGTYPE" message
                  then rdb.get task_name
                  else raise exc
              | _ => raise exc
              end) ;;
  if negb (raw_truthy raw)
  then raise (KeyError task_name)
  else lift (json_loads (default (Text "") raw)).

(** The keys [from_dict] does not copy onto the task. *)
Definition not_copied : list string := ["interval"; "crontab"; "schedule"].

Definition PeriodicTask_from_dict (d : pyval) : result PeriodicTask :=
  match d with
  | PDict dd =>
      (* the local variable [schedule]; [None] while it is unbound *)
      let? schedule :=
        (if truthy (dict_get dd "interval")
         then let? i := subscript d "interval" in
              let? e := subscript i "every" in
              let? p := subscript i "period" in
              Ok (Some (AInterval (mkInterval e p)))
         else Ok None) in
      let? schedule :=
        (if truthy (dict_get dd "crontab")
         then let? c := subscript d "crontab" in
              let? mi := subscript c "minute" in
              let? ho := subscript c "hour" in
              let? dw := subscript c "day_of_week" in
              let? dm := subscript c "day_of_month" in
              let? my := subscript c "month_of_year" in
              Ok (Some (ACrontab (mkCrontab mi ho dw dm my)))
         else Ok schedule) in
      let? name := subscript d "name" in
      let? task := subscript d "task" in
      let? schedule :=
        match schedule with
        | Some s => Ok s
        | None => Raise (UnboundLocalError "schedule")
        end in
      let? task :=
        PeriodicTask_init name task schedule
                          PNone (PBool true) (PList []) (PDict ∅) in
      Ok (mkTask
            ((AVal <$> filter (fun kv => kv.1 ∉ not_copied) dd) ∪ dict task))
  | _ => Raise (AttributeError "get")
  end.

Definition PeriodicTask_from_key (task_name : string) : M PeriodicTask :=
  d <- PeriodicTask_load task_name ;;
  lift (PeriodicTask_from_dict d).

Definition PeriodicTask_delete (self : PeriodicTask) : M unit :=
  name <- lift (as_key (getattr self "name")) ;;
  rdb.sadd REDBEAT_DELETES_KEY name ;;;
  rdb.delete name.

Definition PeriodicTask_clean (self : PeriodicTask) : result unit :=
  if attr_truthy (getattr self "interval") && attr_truthy (getattr self "crontab")
  then Raise (ValidationError "Cannot define both interval and crontab schedule.")
  else if negb (attr_truthy (getattr self "interval")
                || attr_truthy (getattr self "crontab"))
  then Raise (ValidationError "Must defined either interval or crontab schedule.")
  else Ok tt.

(** What [json.dumps] is given: every attribute has to be a plain
    value by then. *)
Definition attr_val (a : attr) : option pyval :=
  match a with
  | AVal v => Some v
  | _ => None
  end.

Definition dumps_dict (self_dict : gmap string attr) : result wire :=
  if bool_decide (map_Forall (fun _ a => is_Some (attr_val a)) self_dict)
  then Ok (json_dumps (PDict (omap attr_val self_dict)))
  else Raise (TypeError "is not JSON serializable").

(** Truthiness of [self_dict.get(k)]. *)
Definition dict_truthy (self_dict : gmap string attr) (k : string) : bool :=
  match self_dict !! k with
  | Some a => attr_truthy a
  | None => false
  end.

Definition PeriodicTask_save (self : PeriodicTask) : M unit :=
  lift (PeriodicTask_clean self) ;;;
  let self_dict := dict self in
  self_dict <-
    (if dict_truthy self_dict "interval"
     then i <- lift (policy_dict (getattr self "interval")) ;;
          ret (<[ "interval" := AVal i ]> self_dict)
     else ret self_dict) ;;
  self_dict <-
    (if dict_truthy self_dict "crontab"
     then c <- lift (policy_dict (getattr self "crontab")) ;;
          ret (<[ "crontab" := AVal c ]> self_dict)
     else ret self_dict) ;;
  name <- lift (as_key (getattr self "name")) ;;
  rdb.srem REDBEAT_DELETES_KEY name ;;;
  raw <- lift (dumps_dict self_dict) ;;
  rdb.hset name "periodic" raw ;;;
  rdb.sadd REDBEAT_UPDATES_KEY name.

(** [PeriodicTask.schedule] *)
Definition PeriodicTask_schedule (self : PeriodicTask) : result celery_schedules :=
  if attr_truthy (getattr self "interval")
  then policy_schedule (getattr self "interval")
  else if attr_truthy (getattr self "crontab")
  then policy_schedule (getattr self "crontab")
  else Raise (Exception "must define interval or crontab schedule").

(** [str] of a name inside a format; only strings are spelled out. *)
Definition str_attr (a : attr) : string :=
  match a with
  | AVal (PStr s) => s
  | _ => "<object>"
  end.

(** [unicode(task)]: the formatted text is not spelled out beyond the
    name; what matters is whether formatting raises. *)
Definition PeriodicTask_unicode (self : PeriodicTask) : result string :=
  if attr_truthy (getattr self "interval") then Ok (str_attr (getattr self "name"))
  else if attr_truthy (getattr self "crontab") then Ok (str_attr (getattr self "name"))
  else Raise (Exception "must define internal or crontab schedule").


(** *** RedBeatSchedulerEntry *)

Record RedBeatSchedulerEntry := mkEntry {
  _task : PeriodicTask;
  name : attr;
  task : attr;
  schedule : celery_schedules;
  args : attr;
  kwargs : attr;
  options : gmap string attr;
  total_run_count : pyval;
  last_run_at : pyval }.

Definition _default_now : M Z := fun w => (Ok (clock w), w).

Definition str_exn (e : exn) : string :=
  match e with
  | ResponseError m | KeyError m | ValidationError m | UnboundLocalError m
  | ValueError m | TypeError m | AttributeError m | Exception m => m
  end.

(** How the [try] statement of [RedBeatSchedulerEntry.load] is left:
    by its [return], or by falling through with the local variable
    [meta] bound or not. *)
Inductive load_flow :=
| Returned (v : pyval)
| Fell (meta : option (option wire)).

Definition RedBeatSchedulerEntry_load (task_name : string) : M pyval :=
  flow <- try_except
            (meta <- rdb.hget task_name "meta" ;; ret (Fell (Some meta)))
            is_ResponseError
            (fun exc =>
               if contains "WRONGTYPE" (str_exn exc)
               then ret (Returned (PDict ∅))
               else ret (Fell None)) ;;
  match flow with
  | Returned v => ret v
  | Fell None => raise (UnboundLocalError "meta")
  | Fell (Some meta) =>
      if negb (raw_truthy meta)
      then ret (PDict ∅)
      else lift (json_loads (default (Text "") meta))
  end.

(** [meta.get(k, dflt)] *)
Definition meta_get (meta : pyval) (k : string) (dflt : pyval) : result pyval :=
  match meta with
  | PDict d => Ok (default dflt (d !! k))
  | _ => Raise (AttributeError "get")
  end.

(** [RedBeatSchedulerEntry(task)], with [total_run_count] and
    [last_run_at] left at their defaults. *)
Definition RedBeatSchedulerEntry_init (task_ : PeriodicTask) : M RedBeatSchedulerEntry :=
  sched <- lift (PeriodicTask_schedule task_) ;;
  let opts : gmap string attr :=
    <[ "queue" := getattr task_ "queue" ]>
    (<[ "exchange" := getattr task_ "exchange" ]>
    (<[ "routing_key" := getattr task_ "routing_key" ]>
     {[ "expires" := getattr task_ "expires" ]})) in
  key <- lift (as_key (getattr task_ "name")) ;;
  meta <- RedBeatSchedulerEntry_load key ;;
  count <- lift (meta_get meta "total_run_count" (PInt 0)) ;;
  now <- _default_now ;;
  last <- lift (meta_get meta "last_run_at" (PDate now)) ;;
  ret (mkEntry task_ (getattr task_ "name") (getattr task_ "task") sched
               (getattr task_ "args") (getattr task_ "kwargs") opts
               count last).

Definition RedBeatSchedulerEntry_from_key (task_name : string) : M RedBeatSchedulerEntry :=
  t <- PeriodicTask_from_key task_name ;;
  RedBeatSchedulerEntry_init t.

Definition RedBeatSchedulerEntry_due_at (self : RedBeatSchedulerEntry) : M Z :=
  match last_run_at self with
  | PDate t =>
      now <- _default_now ;;
      let delta := remaining_estimate (schedule self) t now in
      ret (to_timestamp (t + delta))
  | _ => raise (TypeError "last_run_at is not a datetime")
  end.

Definition RedBeatSchedulerEntry_save (self : RedBeatSchedulerEntry) : M unit :=
  let meta : gmap string pyval :=
    <[ "last_run_at" := last_run_at self ]>
    {[ "total_run_count" := total_run_count self ]} in
  key <- lift (as_key (name self)) ;;
  rdb.hset key "meta" (json_dumps (PDict meta)).

(** [x += 1] *)
Definition incr (x : pyval) : result pyval :=
  match x with
  | PInt n => Ok (PInt (n + 1))
  | PBool b => Ok (PInt ((if b then 1 else 0) + 1))
  | PFloat q => Ok (PFloat (q + 1))
  | _ => Raise (TypeError "unsupported operand type(s) for +=")
  end.

Definition RedBeatSchedulerEntry_next (self : RedBeatSchedulerEntry) : M RedBeatSchedulerEntry :=
  now <- _default_now ;;
  let self := mkEntry (_task self) (name self) (task self) (schedule self)
                      (args self) (kwargs self) (options self)
                      (total_run_count self) (PDate now) in
  count <- lift (incr (total_run_count self)) ;;
  let self := mkEntry (_task self) (name self) (task self) (schedule self)
                      (args self) (kwargs self) (options self)
                      count (last_run_at self) in
  RedBeatSchedulerEntry_save self ;;;
  ret self.

Definition RedBeatSchedulerEntry_is_due (self : RedBeatSchedulerEntry) : M (bool * Q) :=
  if negb (attr_truthy (getattr (_task self) "enabled"))
  then ret (false, 5 # 1)             (* 5 second delay for re-enable *)
  else now <- _default_now ;;
       ret (celery_is_due (schedule self) (last_run_at self) now).

Definition RedBeatSchedulerEntry_from_entry (name_ : string) (entry : conf_entry)
    : M RedBeatSchedulerEntry :=
  let options_ :=
    let o := dict_get (conf_fields entry) "options" in
    if truthy o then o else PDict ∅ in
  let fields := conf_fields entry in
  let fields := delete "options" (delete "relative" fields) in
  let fields := <[ "name" := PStr (REDBEAT_KEY_PREFIX ++ name_) ]> fields in
  sched <- (match conf_schedule_value entry with
            | Some s => ret s
            | None => raise (KeyError "schedule")
            end) ;;
  let sched := maybe_schedule sched in
  let fields :=
    match sched with
    | SObj (celery_crontab mi ho dw dm my) =>
        <[ "crontab" :=
             PDict (<[ "minute" := mi ]>
                   (<[ "hour" := ho ]>
                   (<[ "day_of_week" := dw ]>
                   (<[ "day_of_month" := dm ]>
                    {[ "month_of_year" := my ]})))) ]> fields
    | SObj (celery_schedule run_every) =>
        let secs := total_seconds run_every in
        <[ "interval" :=
             PDict (<[ "every" := if Qle_bool 0 secs then PFloat secs else PInt 0 ]>
                    {[ "period" := PStr "seconds" ]}) ]> fields
    | SVal _ => fields
    end in
  let fields := <[ "args" := default (PList []) (fields !! "args") ]> fields in
  let fields := <[ "kwargs" := default (PDict ∅) (fields !! "kwargs") ]> fields in
  queue <- lift (meta_get options_ "queue" PNone) ;;
  let fields := <[ "queue" := queue ]> fields in
  exchange <- lift (meta_get options_ "exchange" PNone) ;;
  let fields := <[ "exchange" := exchange ]> fields in
  routing_key <- lift (meta_get options_ "routing_key" PNone) ;;
  let fields := <[ "routing_key" := routing_key ]> fields in
  t <- lift (PeriodicTask_from_dict (PDict fields)) ;;
  RedBeatSchedulerEntry_init t.

(** *** RedBeatScheduler *)

Definition ADD_ENTRY_ERROR : string :=
  "Couldn't add entry %r to redis schedule: %r. Contents: %r".

(** Members of the index with [lo <= score <= hi], by ascending score
    and, among equal scores, by name. *)
Definition score_le (a b : string * Z) : bool :=
  (a.2 <? b.2) || ((a.2 =? b.2) && String.leb a.1 b.1).

Fixpoint insert_by_score (a : string * Z) (l : list (string * Z)) : list (string * Z) :=
  match l with
  | [] => [a]
  | b :: l' => if score_le a b then a :: l else b :: insert_by_score a l'
  end.

Definition sort_by_score (l : list (string * Z)) : list (string * Z) :=
  foldr insert_by_score [] l.

Definition zrangebyscore (k : zset_key) (lo hi : Z) : M (list string) :=
  command (fun w =>
    let inside :=
      List.filter (fun a : string * Z => (lo <=? a.2) && (a.2 <=? hi))
                  (map_to_list (rdb_schedule w)) in
    (Ok (map fst (sort_by_score inside)), w)).

(** The body of the [for] loop of [load_from_database]. *)
Definition load_task (task_name : string) : M unit :=
  r <- try_except (t <- PeriodicTask_from_key task_name ;; ret (Some t))
         is_KeyError (fun _ => ret None) ;;
  match r with
  | None => ret tt
  | Some t =>
      text <- lift (PeriodicTask_unicode t) ;;
      emit (log_debug_task text) ;;;
      entry <- RedBeatSchedulerEntry_init t ;;
      due <- RedBeatSchedulerEntry_due_at entry ;;
      key <- lift (as_key (name entry)) ;;
      rdb.zadd REDBEAT_SCHEDULE_KEY due key
  end.

Fixpoint for_each {A} (body : A -> M unit) (l : list A) : M unit :=
  match l with
  | [] => ret tt
  | x :: l' => body x ;;; for_each body l'
  end.

Definition RedBeatScheduler_load_from_database : M unit :=
  emit (log_info "Reading PeriodicTasks from Redis") ;;;
  tasks <- PeriodicTask_get_all ;;
  for_each load_task tasks.

(** The body of the [for] loop of [update_from_dict]: after the [try]
    statement the local variable [entry] holds the built entry, or
    still the configured dictionary when [from_entry] raised. *)
Definition update_from_entry (item : string * conf_entry) : M unit :=
  let '(name_, entry) := item in
  entry <- try_except
             (e <- RedBeatSchedulerEntry_from_entry name_ entry ;; ret (inr e))
             (fun _ => true)
             (fun exc => emit (log_error ADD_ENTRY_ERROR name_ exc) ;;;
                         ret (inl entry)) ;;
  match entry with
  | inl _ => raise (AttributeError "'dict' object has no attribute '_task'")
  | inr entry =>
      PeriodicTask_save (_task entry) ;;;
      key <- lift (as_key (name entry)) ;;
      rdb.srem REDBEAT_UPDATES_KEY key ;;;
      text <- lift (PeriodicTask_unicode (_task entry)) ;;
      emit (log_debug_task text) ;;;
      due <- RedBeatSchedulerEntry_due_at entry ;;
      key <- lift (as_key (name entry)) ;;
      rdb.zadd REDBEAT_SCHEDULE_KEY due key
  end.

Definition RedBeatScheduler_update_from_dict (dict_ : list (string * conf_entry)) : M unit :=
  for_each update_from_entry dict_.

Definition RedBeatScheduler_reserve (entry : RedBeatSchedulerEntry)
    : M RedBeatSchedulerEntry :=
  new_entry <- RedBeatSchedulerEntry_next entry ;;
  due <- RedBeatSchedulerEntry_due_at new_entry ;;
  key <- lift (as_key (name new_entry)) ;;
  rdb.zadd REDBEAT_SCHEDULE_KEY due key ;;;
  ret new_entry.

(** [scard(deletes) or scard(updates)] *)
Definition RedBeatScheduler_schedule_changed : M nat :=
  d <- rdb.scard REDBEAT_DELETES_KEY ;;
  if negb (Nat.eqb d 0) then ret d else rdb.scard REDBEAT_UPDATES_KEY.

(** Truthiness of what [spop] returns. *)
Definition popped (x : option string) : option string :=
  match x with
  | Some s => if String.eqb s "" then None else Some s
  | None => None
  end.

(** The two [while] loops of [update_schedule].  Each turn pops one
    member, so the loops are run with a bound on the number of turns;
    [None] says the bound was reached. *)
Fixpoint drain_deletes (fuel : nat) (w : world) : option (result unit * world) :=
  match fuel with
  | O => None
  | S fuel' =>
      match rdb.spop REDBEAT_DELETES_KEY w with
      | (Raise e, w1) => Some (Raise e, w1)
      | (Ok delete, w1) =>
          match popped delete with
          | None => Some (Ok tt, w1)
          | Some delete =>
              match (emit (log_debug "deleting %s" delete) ;;;
                     rdb.zrem REDBEAT_SCHEDULE_KEY delete) w1 with
              | (Raise e, w2) => Some (Raise e, w2)
              | (Ok _, w2) => drain_deletes fuel' w2
              end
          end
      end
  end.

Definition update_entry (update : string) : M unit :=
  emit (log_debug "updating %s" update) ;;;
  try_except
    (entry <- RedBeatSchedulerEntry_from_key update ;;
     due <- RedBeatSchedulerEntry_due_at entry ;;
     key <- lift (as_key (name entry)) ;;
     rdb.zadd REDBEAT_SCHEDULE_KEY due key)
    is_KeyError                       (* got deleted before we tried to update *)
    (fun _ => ret tt).

Fixpoint drain_updates (fuel : nat) (w : world) : option (result unit * world) :=
  match fuel with
  | O => None
  | S fuel' =>
      match rdb.spop REDBEAT_UPDATES_KEY w with
      | (Raise e, w1) => Some (Raise e, w1)
      | (Ok update, w1) =>
          match popped update with
          | None => Some (Ok tt, w1)
          | Some update =>
              match update_entry update w1 with
              | (Raise e, w2) => Some (Raise e, w2)
              | (Ok _, w2) => drain_updates fuel' w2
              end
          end
      end
  end.

Definition RedBeatScheduler_update_schedule (w : world) : option (result unit * world) :=
  match drain_deletes (S (size (rdb_deletes w))) w with
  | None => None
  | Some (Raise e, w1) => Some (Raise e, w1)
  | Some (Ok _, w1) => drain_updates (S (size (rdb_updates w1))) w1
  end.

(** The dictionary comprehension of [schedule]. *)
Fixpoint entries_of (due_tasks : list string)
    : M (gmap string RedBeatSchedulerEntry) :=
  match due_tasks with
  | [] => ret ∅
  | key :: rest =>
      entry <- RedBeatSchedulerEntry_from_key key ;;
      d <- entries_of rest ;;
      ret (<[ key := entry ]> d)
  end.

Definition due_entries : M (gmap string RedBeatSchedulerEntry) :=
  now <- _default_now ;;
  let maxscore := to_timestamp now in
  due_tasks <- zrangebyscore REDBEAT_SCHEDULE_KEY 0 maxscore ;;
  entries_of due_tasks.

(** [RedBeatScheduler.schedule] *)
Definition RedBeatScheduler_schedule (w : world)
    : option (result (gmap string RedBeatSchedulerEntry) * world) :=
  match RedBeatScheduler_schedule_changed w with
  | (Raise e, w1) => Some (Raise e, w1)
  | (Ok changed, w1) =>
      if negb (Nat.eqb changed 0)
      then match RedBeatScheduler_update_schedule w1 with
           | None => None
           | Some (Raise e, w2) => Some (Raise e, w2)
           | Some (Ok _, w2) => Some (due_entries w2)
           end
      else Some (due_entries w1)
  end.

End Redbeat.

(** * Properties *)

Local Open Scope py_scope.

(** The hash stored under a key: empty when the key is absent, undefined
    when the key holds a bare string. *)
Definition hash_at (w : world) (key : string) : option (gmap string wire) :=
  match rdb_keys w !! key with
  | None => Some ∅
  | Some (RHash h) => Some h
  | Some (RString _) => None
  end.

Definition is_policy (a : attr) : bool :=
  match a with
  | AVal _ => false
  | _ => true
  end.

(** Exactly one of the two policy attributes holds a policy object and
    the other one is false. *)
Definition one_policy (self : PeriodicTask) : Prop :=
  (is_policy (getattr self "interval") = true /\
   attr_truthy (getattr self "crontab") = false) \/
  (is_policy (getattr self "crontab") = true /\
   attr_truthy (getattr self "interval") = false).

(** Both policies, or none. *)
Definition both_or_neither (self : PeriodicTask) : Prop :=
  (attr_truthy (getattr self "interval") = true /\
   attr_truthy (getattr self "crontab") = true) \/
  (attr_truthy (getattr self "interval") = false /\
   attr_truthy (getattr self "crontab") = false).

(** Every attribute besides the two policies is a plain value. *)
Definition plain_attrs (self : PeriodicTask) : Prop :=
  map_Forall
    (fun k a => k <> "interval" -> k <> "crontab" -> is_policy a = false)
    (dict self).

(** The store after a successful [save] of the record named [n], whose
    key held the hash [h], with [d] written as its definition. *)
Definition saved_world (w : world) (n : string) (h : gmap string wire)
    (d : gmap string pyval) : world :=
  mkWorld (<[ n := RHash (<[ "periodic" := json_dumps (PDict d) ]> h) ]> (rdb_keys w))
          (rdb_deletes w ∖ {[ n ]})
          ({[ n ]} ∪ rdb_updates w)
          (rdb_schedule w) (rdb_fault w) (logger w) (clock w).

(** [d] is the record with its policy flattened to its field set. *)
Definition flattened (self : PeriodicTask) (d : gmap string pyval) : Prop :=
  forall k, d !! k =
    match dict self !! k with
    | Some (AVal v) => Some v
    | Some a => match policy_dict a with Ok v => Some v | Raise _ => None end
    | None => None
    end.

Definition is_ValidationError {A} (r : result A) : Prop :=
  exists msg, r = Raise (ValidationError msg).

(** ** Sample data *)

Definition empty_world : world := mkWorld ∅ ∅ ∅ ∅ None [] 0.

(** A record with an interval policy: every 30 seconds. *)
Definition foo_task : PeriodicTask :=
  mkTask (list_to_map
    [ ("name", AVal (PStr "redbeat:foo"));
      ("task", AVal (PStr "tasks.add"));
      ("enabled", AVal (PBool true));
      ("interval", AInterval (mkInterval (PInt 30) (PStr "seconds")));
      ("args", AVal (PList [PInt 1; PInt 2]));
      ("kwargs", AVal (PDict ∅));
      ("queue", AVal (PStr "fast")) ]).


(** A valid record: its [interval] is an [Interval] and its [crontab] is
    false, or its [crontab] is a [Crontab] and its [interval] is false. *)
Definition valid_record (self : PeriodicTask) : Prop :=
  ((exists i, dict self !! "interval" = Some (AInterval i)) /\
   attr_truthy (getattr self "crontab") = false) \/
  ((exists c, dict self !! "crontab" = Some (ACrontab c)) /\
   attr_truthy (getattr self "interval") = false).

(** What [PeriodicTask.load] does with the text it has read. *)
Definition decode (task_name : string) (raw : option wire) : M pyval :=
  match raw with
  | Some (Marshal v) => ret v
  | Some (Text s) =>
      if String.eqb s ""
      then raise (KeyError task_name)
      else raise (ValueError "No JSON object could be decoded")
  | None => raise (KeyError task_name)
  end.

(** A store that answers every command with an error reply. *)
Definition loading_world : world :=
  mkWorld ∅ ∅ ∅ ∅ (Some "LOADING Redis is loading the dataset in memory") [] 0.

(** A store holding one record in the legacy shape, under the bare key. *)
Definition legacy_world : world :=
  mkWorld {[ "redbeat:old" := RString (Marshal (PDict {[ "task" := PStr "tasks.add" ]})) ]}
          ∅ ∅ ∅ None [] 0.

(** A task that was disabled. *)
Definition disabled_task : PeriodicTask :=
  mkTask (<[ "enabled" := AVal (PBool false) ]> (dict foo_task)).

Definition disabled_entry : RedBeatSchedulerEntry :=
  mkEntry disabled_task (AVal (PStr "redbeat:foo")) (AVal (PStr "tasks.add"))
          (celery_schedule 30000000) (AVal (PList [])) (AVal (PDict ∅)) ∅
          (PInt 7) (PDate 0).

(** The run state written by [RedBeatSchedulerEntry.save]. *)
Definition run_state (last : Z) (count : Z) : pyval :=
  PDict (<[ "last_run_at" := PDate last ]> {[ "total_run_count" := PInt count ]}).

(** An entry after [next]: run once more, last run at [now]. *)
Definition advanced (e : RedBeatSchedulerEntry) (now count : Z) : RedBeatSchedulerEntry :=
  mkEntry (_task e) (name e) (task e) (schedule e) (args e) (kwargs e)
          (options e) (PInt (count + 1)) (PDate now).

(** An entry for the record [foo_task] that has run seven times. *)
Definition foo_entry : RedBeatSchedulerEntry :=
  mkEntry foo_task (AVal (PStr "redbeat:foo")) (AVal (PStr "tasks.add"))
          (celery_schedule 30000000) (AVal (PList [PInt 1; PInt 2]))
          (AVal (PDict ∅)) ∅ (PInt 7) (PDate 1000000).

(** An interval schedule as celery estimates it: what is left of
    [run_every] since [last_run_at]; used in examples only. *)
Definition sample_remaining (s : celery_schedules) (last now : Z) : Z :=
  match s with
  | celery_schedule run_every => last + run_every - now
  | _ => 60000000
  end.

(** What the code reads of the store when it loads a record or builds an
    entry: the keys, the server condition and the clock. *)
Definition view (w : world) : world :=
  mkWorld (rdb_keys w) ∅ ∅ ∅ (rdb_fault w) [] (clock w).

(** A computation that only reads, and only what [view] keeps. *)
Definition reads_only {A} (c : M A) : Prop :=
  forall w, c w = ((c (view w)).1, w).

(** The due timestamp the entry of record [u] gets, when the record
    loads and its last run is a datetime. *)
Definition due_of prefix (remaining_estimate : celery_schedules -> Z -> Z -> Z)
    (v : world) (u : string) : option Z :=
  match (RedBeatSchedulerEntry_from_key prefix u v).1 with
  | Ok entry =>
      match last_run_at entry with
      | PDate t =>
          Some (to_timestamp (t + remaining_estimate (schedule entry) t (clock v)))
      | _ => None
      end
  | Raise _ => None
  end.

(** A pending name either has no record any more, or loads as an entry
    that carries this name and a datetime as its last run. *)
Definition updatable prefix (v : world) (u : string) : Prop :=
  (exists k, (RedBeatSchedulerEntry_from_key prefix u v).1 = Raise (KeyError k)) \/
  (exists entry t,
     (RedBeatSchedulerEntry_from_key prefix u v).1 = Ok entry /\
     name entry = AVal (PStr u) /\ last_run_at entry = PDate t).

Definition upsert (u : string) (score : option Z) (index : gmap string Z) : gmap string Z :=
  match score with
  | Some s => <[ u := s ]> index
  | None => index
  end.

Definition logged (r : log_record) (w : world) : world :=
  mkWorld (rdb_keys w) (rdb_deletes w) (rdb_updates w) (rdb_schedule w)
          (rdb_fault w) (logger w ++ [r]) (clock w).

(** A record [bar], every 10 seconds. *)
Definition bar_task : PeriodicTask :=
  mkTask (list_to_map
    [ ("name", AVal (PStr "redbeat:bar"));
      ("task", AVal (PStr "tasks.ping"));
      ("enabled", AVal (PBool true));
      ("interval", AInterval (mkInterval (PInt 10) (PStr "seconds")));
      ("args", AVal (PList []));
      ("kwargs", AVal (PDict ∅)) ]).

(** The definition of [foo_task] as [save] writes it. *)
Definition foo_definition : pyval :=
  PDict (list_to_map
    [ ("name", PStr "redbeat:foo");
      ("task", PStr "tasks.add");
      ("enabled", PBool true);
      ("interval", PDict (list_to_map [("every", PInt 30); ("period", PStr "seconds")]));
      ("args", PList [PInt 1; PInt 2]);
      ("kwargs", PDict ∅);
      ("queue", PStr "fast") ]).

(** A store where [foo] is saved and waits as a pending update, and the
    index still has [bar] from an earlier life. *)
Definition before_bar : world :=
  mkWorld {[ "redbeat:foo" := RHash {[ "periodic" := json_dumps foo_definition ]} ]}
          ∅ {[ "redbeat:foo" ]} {[ "redbeat:bar" := 5 ]} None [] 1000000.

(** The same store after [bar] was saved and then deleted. *)
Definition bar_saved : world := (PeriodicTask_save bar_task before_bar).2.
Definition bar_deleted : world := (PeriodicTask_delete bar_task bar_saved).2.



Definition nothing_pending (w : world) : Prop :=
  rdb_deletes w = ∅ /\ rdb_updates w = ∅.



(** A record without any schedule policy, as a client may have written
    it. *)
Definition bad_definition : pyval :=
  PDict (list_to_map [ ("name", PStr "redbeat:a"); ("task", PStr "tasks.add") ]).

(** A namespace with that record and the well-formed [foo]. *)
Definition seed_world : world :=
  mkWorld (<[ "redbeat:a" := RHash {[ "periodic" := json_dumps bad_definition ]} ]>
           {[ "redbeat:foo" := RHash {[ "periodic" := json_dumps foo_definition ]} ]})
          ∅ ∅ ∅ None [] 40000000.

(** A computation that leaves alone what [view] keeps. *)
Definition keeps_view {A} (c : M A) : Prop :=
  forall w, view (c w).2 = view w.

(** A stored definition with a name and an interval but no task. *)
Definition every_minute : gmap string pyval :=
  list_to_map [ ("every", PInt 1); ("period", PStr "minutes") ].

Definition taskless_fields : gmap string pyval :=
  list_to_map [ ("name", PStr "redbeat:notask"); ("interval", PDict every_minute) ].

Definition taskless_world : world :=
  mkWorld {[ "redbeat:notask" := RHash {[ "periodic" := json_dumps (PDict taskless_fields) ]} ]}
          ∅ ∅ ∅ None [] 0.

(** The store after [delete] of the record named [n]. *)
Definition deleted_world (w : world) (n : string) : world :=
  mkWorld (delete n (rdb_keys w)) ({[ n ]} ∪ rdb_deletes w) (rdb_updates w)
          (rdb_schedule w) (rdb_fault w) (logger w) (clock w).

(** A store where [foo] has been run: only its run state is there. *)
Definition after_run : world :=
  mkWorld {[ "redbeat:foo" := RHash {[ "meta" := json_dumps (run_state 31000000 8) ]} ]}
          ∅ ∅ {[ "redbeat:foo" := 61 ]} None [] 31000000.

(** The record [foo] kept in the legacy shape, under the bare key. *)
Definition legacy_foo : world :=
  mkWorld {[ "redbeat:foo" := RString (json_dumps foo_definition) ]}
          ∅ ∅ ∅ None [] 5000000.

(** A configured schedule with one entry that lacks its [schedule] and
    one that is complete. *)
Definition broken_conf : list (string * conf_entry) :=
  [ ("first", mkConf None {[ "task" := PStr "tasks.add" ]});
    ("second", mkConf (Some (SObj (celery_schedule 10000000)))
                      {[ "task" := PStr "tasks.ping" ]}) ].

(** An index with a member whose score lies before the epoch. *)
Definition early_world : world :=
  mkWorld ∅ ∅ ∅ {[ "redbeat:early" := -5 ]} None [] 40000000.


(** A configured entry whose schedule runs every minus ten seconds. *)
Definition backwards_conf : conf_entry :=
  mkConf (Some (SObj (celery_schedule (-10000000))))
         (<[ "task" := PStr "tasks.ping" ]>
          {[ "options" := PDict {[ "queue" := PStr "slow" ]} ]}).

(** A store where [ping] waits in both pending sets. *)
Definition pending_ping : world :=
  mkWorld ∅ {[ "redbeat:ping" ]} {[ "redbeat:ping" ]} ∅ None [] 7000000.

(** The entry that [from_entry] builds for it there. *)
Definition ping_entry : RedBeatSchedulerEntry :=
  match (RedBeatSchedulerEntry_from_entry "redbeat:" (fun s => s) "ping"
           backwards_conf pending_ping).1 with
  | Ok e => e
  | Raise _ => foo_entry
  end.

(** Running the monad. *)
Ltac run :=
  unfold bind, ret, raise, lift, try_except, command, emit, _default_now,
    rbind in *; simpl in *.

Lemma rdb_fault_put_set k s w : rdb_fault (put_set k s w) = rdb_fault w.
Proof. by destruct k. Qed.

Lemma srem_ok k m w :
  rdb_fault w = None ->
  rdb.srem k m w = (Ok tt, put_set k (get_set k w ∖ {[ m ]}) w).
Proof. intros Hf. unfold rdb.srem, command. by rewrite Hf. Qed.

Lemma sadd_ok k m w :
  rdb_fault w = None ->
  rdb.sadd k m w = (Ok tt, put_set k ({[ m ]} ∪ get_set k w) w).
Proof. intros Hf. unfold rdb.sadd, command. by rewrite Hf. Qed.

Lemma zadd_ok k sc m w :
  rdb_fault w = None ->
  rdb.zadd k sc m w = (Ok tt, set_schedule (insert m sc) w).
Proof. intros Hf. unfold rdb.zadd, command. by rewrite Hf. Qed.

Lemma zrem_ok k m w :
  rdb_fault w = None ->
  rdb.zrem k m w = (Ok tt, set_schedule (delete m) w).
Proof. intros Hf. unfold rdb.zrem, command. by rewrite Hf. Qed.

Lemma hset_ok key field v w h :
  rdb_fault w = None ->
  hash_at w key = Some h ->
  rdb.hset key field v w =
    (Ok tt, set_keys (insert key (RHash (<[ field := v ]> h))) w).
Proof.
  intros Hf Hh. unfold rdb.hset, command, hash_at in *. rewrite Hf.
  destruct (rdb_keys w !! key) as [[?|?]|]; simplify_eq; done.
Qed.

Lemma hget_ok key field w h :
  rdb_fault w = None ->
  hash_at w key = Some h ->
  rdb.hget key field w = (Ok (h !! field), w).
Proof.
  intros Hf Hh. unfold rdb.hget, command, hash_at in *. rewrite Hf.
  destruct (rdb_keys w !! key) as [[?|?]|]; simplify_eq; done.
Qed.

(** ** Saving a record *)

Lemma clean_both_or_neither self :
  both_or_neither self -> is_ValidationError (PeriodicTask_clean self).
Proof.
  intros [[Hi Hc]|[Hi Hc]]; unfold PeriodicTask_clean; rewrite Hi, Hc; simpl;
    eexists; reflexivity.
Qed.

Lemma clean_one_policy self :
  one_policy self -> PeriodicTask_clean self = Ok tt.
Proof.
  intros [[Hi Hc]|[Hc Hi]]; unfold PeriodicTask_clean.
  - destruct (getattr self "interval"); try discriminate; rewrite Hc; done.
  - destruct (getattr self "crontab"); try discriminate; rewrite Hi; done.
Qed.

Lemma policy_in_dict self k :
  is_policy (getattr self k) = true ->
  dict self !! k = Some (getattr self k).
Proof.
  unfold getattr. destruct (dict self !! k); [done|]. discriminate.
Qed.

Lemma policy_dict_ok a :
  is_policy a = true -> exists d, policy_dict a = Ok (PDict d).
Proof. destruct a; [discriminate| |]; intros _; eexists; reflexivity. Qed.

Lemma is_policy_truthy a : is_policy a = true -> attr_truthy a = true.
Proof. by destruct a. Qed.

Lemma dict_truthy_getattr self k :
  dict_truthy (dict self) k = true -> attr_truthy (getattr self k) = true.
Proof. unfold dict_truthy, getattr. by destruct (dict self !! k). Qed.

Lemma dict_falsy self k :
  attr_truthy (getattr self k) = false -> dict_truthy (dict self) k = false.
Proof. unfold dict_truthy, getattr. by destruct (dict self !! k). Qed.

Lemma dumps_dict_plain (sd : gmap string attr) :
  (forall k a, sd !! k = Some a -> is_policy a = false) ->
  dumps_dict sd = Ok (json_dumps (PDict (omap attr_val sd))).
Proof.
  intros H. unfold dumps_dict. rewrite bool_decide_eq_true_2; [done|].
  intros k a Hk. apply H in Hk. destruct a; try discriminate. by eexists.
Qed.

Lemma save_writes self w n h :
  one_policy self -> plain_attrs self ->
  getattr self "name" = AVal (PStr n) ->
  rdb_fault w = None -> hash_at w n = Some h ->
  exists d, flattened self d /\
    PeriodicTask_save self w = (Ok tt, saved_world w n h d).
Proof.
  intros Hone Hplain Hname Hf Hh.
  pose proof (clean_one_policy _ Hone) as Hclean.
  unfold PeriodicTask_save.
  destruct Hone as [[Hp Hno]|[Hp Hno]].
  - pose proof (policy_in_dict _ _ Hp) as Hin.
    destruct (policy_dict_ok _ Hp) as [pd Hpd].
    exists (omap attr_val (<[ "interval" := AVal (PDict pd) ]> (dict self))).
    split.
    + intros k. rewrite lookup_omap.
      destruct (decide (k = "interval")) as [->|Hk].
      * rewrite lookup_insert_eq, Hin. simpl.
        destruct (getattr self "interval"); try discriminate; by rewrite Hpd.
      * rewrite lookup_insert_ne by done.
        destruct (dict self !! k) as [a|] eqn:Ha; [|done].
        destruct (decide (k = "crontab")) as [->|Hk'].
        -- unfold getattr in Hno. rewrite Ha in Hno. by destruct a.
        -- pose proof (Hplain _ _ Ha Hk Hk'). by destruct a.
    + run. rewrite Hclean.
      assert (dict_truthy (dict self) "interval" = true) as ->.
      { unfold dict_truthy. rewrite Hin. by apply is_policy_truthy. }
      rewrite Hpd.
      assert (dict_truthy (<["interval" := AVal (PDict pd)]> (dict self)) "crontab" = false) as ->.
      { unfold dict_truthy. rewrite lookup_insert_ne by done.
        by apply dict_falsy in Hno. }
      rewrite Hname. simpl.
      rewrite srem_ok by done.
      rewrite dumps_dict_plain; cycle 1.
      { intros k a. destruct (decide (k = "interval")) as [->|Hk].
        - rewrite lookup_insert_eq. by intros [= <-].
        - rewrite lookup_insert_ne by done. intros Ha.
          destruct (decide (k = "crontab")) as [->|Hk'].
          + unfold getattr in Hno. rewrite Ha in Hno. by destruct a.
          + by apply (Hplain _ _ Ha). }
      erewrite hset_ok; [|done|exact Hh].
      rewrite sadd_ok by done. reflexivity.
  - pose proof (policy_in_dict _ _ Hp) as Hin.
    destruct (policy_dict_ok _ Hp) as [pd Hpd].
    exists (omap attr_val (<[ "crontab" := AVal (PDict pd) ]> (dict self))).
    split.
    + intros k. rewrite lookup_omap.
      destruct (decide (k = "crontab")) as [->|Hk].
      * rewrite lookup_insert_eq, Hin. simpl.
        destruct (getattr self "crontab"); try discriminate; by rewrite Hpd.
      * rewrite lookup_insert_ne by done.
        destruct (dict self !! k) as [a|] eqn:Ha; [|done].
        destruct (decide (k = "interval")) as [->|Hk'].
        -- unfold getattr in Hno. rewrite Ha in Hno. by destruct a.
        -- pose proof (Hplain _ _ Ha Hk' Hk). by destruct a.
    + run. rewrite Hclean.
      assert (dict_truthy (dict self) "interval" = false) as ->.
      { by apply dict_falsy. }
      assert (dict_truthy (dict self) "crontab" = true) as ->.
      { unfold dict_truthy. rewrite Hin. by apply is_policy_truthy. }
      rewrite Hpd, Hname. simpl.
      rewrite srem_ok by done.
      rewrite dumps_dict_plain; cycle 1.
      { intros k a. destruct (decide (k = "crontab")) as [->|Hk].
        - rewrite lookup_insert_eq. by intros [= <-].
        - rewrite lookup_insert_ne by done. intros Ha.
          destruct (decide (k = "interval")) as [->|Hk'].
          + unfold getattr in Hno. rewrite Ha in Hno. by destruct a.
          + by apply (Hplain _ _ Ha). }
      erewrite hset_ok; [|done|exact Hh].
      rewrite sadd_ok by done. reflexivity.
Qed.

Lemma save_rejects self w :
  both_or_neither self ->
  exists msg, PeriodicTask_save self w = (Raise (ValidationError msg), w).
Proof.
  intros H. destruct (clean_both_or_neither _ H) as [msg Hmsg].
  exists msg. unfold PeriodicTask_save. run. by rewrite Hmsg.
Qed.



(** ** Saving and loading a record *)

Lemma valid_one_policy self : valid_record self -> one_policy self.
Proof.
  intros [[[i Hi] Hc]|[[c Hc] Hi]]; [left|right]; split; try done;
    unfold getattr; by rewrite ?Hi, ?Hc.
Qed.

Lemma load_saved w n h d :
  rdb_fault w = None ->
  PeriodicTask_load n (saved_world w n h d) = (Ok (PDict d), saved_world w n h d).
Proof.
  intros Hf. unfold PeriodicTask_load, rdb.hget. run. rewrite Hf.
  rewrite lookup_insert_eq. rewrite lookup_insert_eq. reflexivity.
Qed.

Lemma truthy_PDict_insert k v (m : gmap string pyval) :
  truthy (PDict (<[ k := v ]> m)) = true.
Proof.
  simpl. rewrite bool_decide_eq_false_2; [done|]. apply insert_non_empty.
Qed.

Lemma falsy_attr_flattened self d k :
  flattened self d ->
  attr_truthy (getattr self k) = false ->
  truthy (dict_get d k) = false.
Proof.
  intros Hfl Hno. unfold dict_get. rewrite Hfl. unfold getattr in Hno.
  destruct (dict self !! k) as [[v| |]|]; try done.
Qed.

Lemma from_dict_interval prefix self d i n t :
  flattened self d ->
  dict self !! "interval" = Some (AInterval i) ->
  attr_truthy (getattr self "crontab") = false ->
  dict self !! "name" = Some (AVal (PStr n)) ->
  dict self !! "task" = Some (AVal t) ->
  exists base,
    PeriodicTask_init prefix (PStr n) t (AInterval i) PNone (PBool true) (PList []) (PDict ∅) = Ok (mkTask base) /\
    PeriodicTask_from_dict prefix (PDict d) =
      Ok (mkTask ((AVal <$> filter (fun kv => kv.1 ∉ not_copied) d) ∪ base)).
Proof.
  intros Hfl Hi Hc Hn Ht. eexists. split; [reflexivity|].
  unfold PeriodicTask_from_dict.
  pose proof (Hfl "interval") as Hdi. rewrite Hi in Hdi. simpl in Hdi.
  unfold dict_get at 1. rewrite Hdi.
  rewrite truthy_PDict_insert.
  rewrite (falsy_attr_flattened _ _ _ Hfl Hc).
  unfold subscript at 1. rewrite Hdi. simpl.
  rewrite lookup_insert_eq. rewrite lookup_insert_ne by done.
  rewrite lookup_singleton_eq.
  pose proof (Hfl "name") as Hdn. rewrite Hn in Hdn.
  pose proof (Hfl "task") as Hdt. rewrite Ht in Hdt.
  rewrite Hdn, Hdt. simpl. destruct i; reflexivity.
Qed.

Lemma from_dict_crontab prefix self d c n t :
  flattened self d ->
  dict self !! "crontab" = Some (ACrontab c) ->
  attr_truthy (getattr self "interval") = false ->
  dict self !! "name" = Some (AVal (PStr n)) ->
  dict self !! "task" = Some (AVal t) ->
  exists base,
    PeriodicTask_init prefix (PStr n) t (ACrontab c) PNone (PBool true) (PList []) (PDict ∅) = Ok (mkTask base) /\
    PeriodicTask_from_dict prefix (PDict d) =
      Ok (mkTask ((AVal <$> filter (fun kv => kv.1 ∉ not_copied) d) ∪ base)).
Proof.
  intros Hfl Hc Hi Hn Ht. eexists. split; [reflexivity|].
  unfold PeriodicTask_from_dict.
  pose proof (Hfl "crontab") as Hdc. rewrite Hc in Hdc. simpl in Hdc.
  rewrite (falsy_attr_flattened _ _ _ Hfl Hi).
  unfold dict_get at 1. rewrite Hdc.
  rewrite truthy_PDict_insert.
  unfold subscript at 1. rewrite Hdc. simpl.
  repeat (rewrite ?lookup_insert_eq; rewrite ?lookup_insert_ne by done).
  rewrite lookup_singleton_eq.
  pose proof (Hfl "name") as Hdn. rewrite Hn in Hdn.
  pose proof (Hfl "task") as Hdt. rewrite Ht in Hdt.
  rewrite Hdn, Hdt. simpl. destruct c; reflexivity.
Qed.

(** An attribute that [from_dict] copies comes back as it was saved. *)
Lemma copied_attr self d base k :
  flattened self d ->
  plain_attrs self ->
  k ∉ not_copied ->
  (dict self !! k = None -> base !! k = AVal <$> (class_attrs !! k) \/
                            (base !! k = None)) ->
  getattr (mkTask ((AVal <$> filter (fun kv => kv.1 ∉ not_copied) d) ∪ base)) k
  = getattr self k.
Proof.
  intros Hfl Hplain Hk Hbase. unfold getattr. simpl.
  rewrite lookup_union, lookup_fmap.
  rewrite map_lookup_filter. rewrite Hfl.
  assert (k <> "interval" /\ k <> "crontab") as [Hki Hkc].
  { unfold not_copied in Hk. set_solver. }
  destruct (dict self !! k) as [a|] eqn:Ha.
  - pose proof (Hplain _ _ Ha Hki Hkc) as Hp.
    destruct a; try discriminate. simpl.
    rewrite option_guard_True by done. simpl.
    by destruct (base !! k).
  - simpl. destruct (Hbase eq_refl) as [-> | ->].
    + rewrite (left_id None _). by destruct (class_attrs !! k).
    + done.
Qed.

Lemma init_base_lookup (self : PeriodicTask) (pol : attr) (pk : string) nm t k :
  pk ∈ not_copied ->
  k ∉ not_copied ->
  is_Some (dict self !! "name") ->
  is_Some (dict self !! "task") ->
  dict self !! k = None ->
  let base : gmap string attr :=
    <[ "name" := nm ]> (<[ "kwargs" := AVal (PDict ∅) ]>
      (<[ "args" := AVal (PList []) ]> (<[ pk := pol ]>
        (<[ "enabled" := AVal (PBool true) ]> {[ "task" := t ]})))) in
  base !! k = AVal <$> (class_attrs !! k) \/ base !! k = None.
Proof.
  intros Hpk Hk [? Hn] [? Ht] Hnone base. subst base.
  destruct (decide (k = "name")) as [->|?]; [congruence|].
  destruct (decide (k = "task")) as [->|?]; [congruence|].
  destruct (decide (k = pk)) as [->|?]; [done|].
  destruct (decide (k = "kwargs")) as [->|?].
  { left. rewrite lookup_insert_ne by done. by rewrite lookup_insert_eq. }
  destruct (decide (k = "args")) as [->|?].
  { left. do 2 rewrite lookup_insert_ne by done. by rewrite lookup_insert_eq. }
  destruct (decide (k = "enabled")) as [->|?].
  { left. do 2 rewrite lookup_insert_ne by done.
    destruct (decide (pk = "enabled")) as [->|?].
    - unfold not_copied in Hpk. set_solver.
    - rewrite lookup_insert_ne by done. rewrite lookup_insert_ne by done.
      by rewrite lookup_insert_eq. }
  right. repeat rewrite lookup_insert_ne by done. by rewrite lookup_singleton_ne.
Qed.

(** C5. Saving a valid record and loading it by its name gives a record
    with the same [task], [args], [kwargs], [queue], [exchange] and
    [routing_key], and the same schedule policy (the attribute that was
    not a policy stays false). *)
Theorem save_load_round_trip prefix (self : PeriodicTask) (w : world) n h t :
  valid_record self -> plain_attrs self ->
  dict self !! "name" = Some (AVal (PStr n)) ->
  dict self !! "task" = Some (AVal t) ->
  rdb_fault w = None -> hash_at w n = Some h ->
  exists w1 self',
    PeriodicTask_save self w = (Ok tt, w1) /\
    PeriodicTask_from_key prefix n w1 = (Ok self', w1) /\
    (forall k, k ∈ ["task"; "args"; "kwargs"; "queue"; "exchange"; "routing_key"] ->
       getattr self' k = getattr self k) /\
    (forall k, k ∈ ["interval"; "crontab"] ->
       if is_policy (getattr self k)
       then getattr self' k = getattr self k
       else attr_truthy (getattr self' k) = false).
Proof.
  intros Hvalid Hplain Hn Ht Hf Hh.
  assert (getattr self "name" = AVal (PStr n)) as Hname.
  { unfold getattr. by rewrite Hn. }
  destruct (save_writes self w n h (valid_one_policy _ Hvalid) Hplain Hname Hf Hh)
    as (d & Hfl & Hsave).
  exists (saved_world w n h d).
  assert (forall pol pk nm,
    pk ∈ ["interval"; "crontab"] ->
    dict self !! pk = Some pol -> is_policy pol = true ->
    (forall k, k ∈ ["interval"; "crontab"] -> k <> pk ->
       attr_truthy (getattr self k) = false) ->
    let base : gmap string attr :=
      <[ "name" := nm ]> (<[ "kwargs" := AVal (PDict ∅) ]>
        (<[ "args" := AVal (PList []) ]> (<[ pk := pol ]>
          (<[ "enabled" := AVal (PBool true) ]> {[ "task" := AVal t ]})))) in
    let self' := mkTask ((AVal <$> filter (fun kv => kv.1 ∉ not_copied) d) ∪ base) in
    (forall k, k ∈ ["task"; "args"; "kwargs"; "queue"; "exchange"; "routing_key"] ->
       getattr self' k = getattr self k) /\
    (forall k, k ∈ ["interval"; "crontab"] ->
       if is_policy (getattr self k)
       then getattr self' k = getattr self k
       else attr_truthy (getattr self' k) = false)) as Hattrs.
  { intros pol pk nm Hpk Hpol Hisp Hother base self'. split.
    - intros k Hk. apply copied_attr; try done.
      { unfold not_copied. set_solver. }
      apply init_base_lookup; try done.
      + unfold not_copied. set_solver.
      + unfold not_copied. set_solver.
    - intros k Hk.
      assert (((AVal <$> filter (fun kv : string * pyval => kv.1 ∉ not_copied) d) : gmap string attr) !! k = None) as Hcut.
      { rewrite lookup_fmap, map_lookup_filter.
        destruct (d !! k); [|done]. simpl.
        rewrite option_guard_False; [done|].
        intros Hnot. apply Hnot. unfold not_copied. set_solver. }
      destruct (decide (k = pk)) as [->|Hne].
      + unfold getattr at 1 2 4. rewrite Hpol, Hisp. simpl.
        rewrite lookup_union, Hcut, (left_id None _).
        subst base. do 3 rewrite lookup_insert_ne by set_solver.
        rewrite lookup_insert_eq. unfold getattr. by rewrite Hpol.
      + pose proof (Hother k Hk Hne) as Hfalse.
        destruct (is_policy (getattr self k)) eqn:Hp.
        { apply is_policy_truthy in Hp. congruence. }
        unfold getattr at 1. simpl.
        rewrite lookup_union, Hcut, (left_id None _).
        subst base. do 3 rewrite lookup_insert_ne by set_solver.
        rewrite lookup_insert_ne by done.
        rewrite lookup_insert_ne by set_solver.
        rewrite lookup_singleton_ne by set_solver.
        assert (k = "interval" \/ k = "crontab") as [-> | ->] by set_solver; done. }
  destruct Hvalid as [[[i Hi] Hc]|[[c Hc] Hi]].
  - destruct (from_dict_interval prefix self d i n t Hfl Hi Hc Hn Ht)
      as (base & Hinit & Hfrom).
    injection Hinit as <-.
    eexists. split; [exact Hsave|]. split.
    + unfold PeriodicTask_from_key, bind.
      rewrite load_saved by done. unfold lift. by rewrite Hfrom.
    + apply Hattrs; try done.
      * set_solver.
      * intros k Hk Hne.
        assert (k = "crontab") as -> by set_solver. done.
  - destruct (from_dict_crontab prefix self d c n t Hfl Hc Hi Hn Ht)
      as (base & Hinit & Hfrom).
    injection Hinit as <-.
    eexists. split; [exact Hsave|]. split.
    + unfold PeriodicTask_from_key, bind.
      rewrite load_saved by done. unfold lift. by rewrite Hfrom.
    + apply Hattrs; try done.
      * set_solver.
      * intros k Hk Hne.
        assert (k = "interval") as -> by set_solver. done.
Qed.

Lemma save_load_round_trip_witness :
  exists w1 self',
    PeriodicTask_save foo_task empty_world = (Ok tt, w1) /\
    PeriodicTask_from_key "redbeat:" "redbeat:foo" w1 = (Ok self', w1) /\
    (forall k, k ∈ ["task"; "args"; "kwargs"; "queue"; "exchange"; "routing_key"] ->
       getattr self' k = getattr foo_task k) /\
    (forall k, k ∈ ["interval"; "crontab"] ->
       if is_policy (getattr foo_task k)
       then getattr self' k = getattr foo_task k
       else attr_truthy (getattr self' k) = false).
Proof.
  apply (save_load_round_trip "redbeat:" foo_task empty_world
           "redbeat:foo" ∅ (PStr "tasks.add")).
  - left. split; [eexists|]; reflexivity.
  - unfold plain_attrs. apply (bool_decide_unpack _). vm_compute. exact I.
  - reflexivity.
  - reflexivity.
  - reflexivity.
  - reflexivity.
Defined.

(** ** Loading a record *)

Lemma load_after_read task_name w raw w' :
  rdb.hget task_name "periodic" w = (Ok raw, w') ->
  PeriodicTask_load task_name w = decode task_name raw w'.
Proof.
  intros H. unfold PeriodicTask_load, bind, try_except. rewrite H.
  destruct raw as [[v|s]|]; simpl; try done.
  unfold decode. by destruct (String.eqb s "").
Qed.

Lemma load_after_get task_name raw :
  (if negb (raw_truthy raw)
   then raise (KeyError task_name)
   else lift (json_loads (default (Text "") raw)))
  = decode task_name raw.
Proof.
  destruct raw as [[v|s]|]; simpl; try done.
  by destruct (String.eqb s "").
Qed.

Lemma load_no_data task_name w :
  rdb_fault w = None ->
  (rdb_keys w !! task_name = None \/
   exists h, rdb_keys w !! task_name = Some (RHash h) /\
             raw_truthy (h !! "periodic") = false) ->
  PeriodicTask_load task_name w = (Raise (KeyError task_name), w).
Proof.
  intros Hf Hno.
  assert (exists raw, rdb.hget task_name "periodic" w = (Ok raw, w)
                      /\ raw_truthy raw = false) as (raw & Hget & Hraw).
  { unfold rdb.hget, command. rewrite Hf.
    destruct Hno as [-> | (h & -> & Hh)]; eauto. }
  rewrite (load_after_read _ _ _ _ Hget).
  destruct raw as [[v|s]|]; simpl in *; try done.
  by destruct (String.eqb s "").
Qed.

Lemma load_wrongtype task_name w msg w' :
  rdb.hget task_name "periodic" w = (Raise (ResponseError msg), w') ->
  contains "WRONGTYPE" msg = true ->
  PeriodicTask_load task_name w
  = (raw <- rdb.get task_name ;; decode task_name raw) w'.
Proof.
  intros Hget Hwrong.
  unfold PeriodicTask_load, bind, try_except. rewrite Hget. simpl.
  rewrite Hwrong. destruct (rdb.get task_name w') as [[raw|e] w''] eqn:Hg; [|done].
  by rewrite load_after_get.
Qed.

Lemma load_legacy task_name w v :
  rdb_fault w = None ->
  rdb_keys w !! task_name = Some (RString (Marshal v)) ->
  PeriodicTask_load task_name w = (Ok v, w).
Proof.
  intros Hf Hk.
  unfold PeriodicTask_load, bind, try_except, rdb.hget, rdb.get, command.
  rewrite Hf, Hk. simpl. by rewrite Hf, Hk.
Qed.

Lemma load_reraise task_name w msg w' :
  rdb.hget task_name "periodic" w = (Raise (ResponseError msg), w') ->
  contains "WRONGTYPE" msg = false ->
  PeriodicTask_load task_name w = (Raise (ResponseError msg), w').
Proof.
  intros Hget Hother.
  unfold PeriodicTask_load, bind, try_except. rewrite Hget. simpl.
  by rewrite Hother.
Qed.

(** C6. [PeriodicTask.load] raises [KeyError] with the task name when the
    key or its [periodic] field holds no data; when the read of the field
    is answered with a WRONGTYPE error it reads the bare key instead (the
    legacy record shape); any other store error is raised again. *)
Theorem load_not_found_fallback_reraise (task_name : string) (w : world) :
  (rdb_fault w = None ->
   (rdb_keys w !! task_name = None \/
    exists h, rdb_keys w !! task_name = Some (RHash h) /\
              raw_truthy (h !! "periodic") = false) ->
   PeriodicTask_load task_name w = (Raise (KeyError task_name), w)) /\
  (forall msg w',
     rdb.hget task_name "periodic" w = (Raise (ResponseError msg), w') ->
     contains "WRONGTYPE" msg = true ->
     PeriodicTask_load task_name w
     = (raw <- rdb.get task_name ;; decode task_name raw) w') /\
  (forall v,
     rdb_fault w = None ->
     rdb_keys w !! task_name = Some (RString (Marshal v)) ->
     PeriodicTask_load task_name w = (Ok v, w)) /\
  (forall msg w',
     rdb.hget task_name "periodic" w = (Raise (ResponseError msg), w') ->
     contains "WRONGTYPE" msg = false ->
     PeriodicTask_load task_name w = (Raise (ResponseError msg), w')).
Proof.
  split; [|split; [|split]].
  - apply load_no_data.
  - intros msg w'. apply load_wrongtype.
  - intros v. apply load_legacy.
  - intros msg w'. apply load_reraise.
Qed.

Lemma load_not_found_fallback_reraise_witness :
  PeriodicTask_load "redbeat:gone" empty_world
    = (Raise (KeyError "redbeat:gone"), empty_world) /\
  PeriodicTask_load "redbeat:old" legacy_world
    = (Ok (PDict {[ "task" := PStr "tasks.add" ]}), legacy_world) /\
  PeriodicTask_load "redbeat:old" legacy_world
    = (raw <- rdb.get "redbeat:old" ;; decode "redbeat:old" raw) legacy_world /\
  PeriodicTask_load "redbeat:foo" loading_world
    = (Raise (ResponseError "LOADING Redis is loading the dataset in memory"),
       loading_world).
Proof.
  split; [|split; [|split]].
  - apply (proj1 (load_not_found_fallback_reraise "redbeat:gone" empty_world)).
    + reflexivity.
    + left. reflexivity.
  - apply (proj1 (proj2 (proj2
             (load_not_found_fallback_reraise "redbeat:old" legacy_world)))).
    + reflexivity.
    + reflexivity.
  - apply (proj1 (proj2
             (load_not_found_fallback_reraise "redbeat:old" legacy_world))
             WRONGTYPE).
    + reflexivity.
    + reflexivity.
  - apply (proj2 (proj2 (proj2
             (load_not_found_fallback_reraise "redbeat:foo" loading_world)))).
    + reflexivity.
    + reflexivity.
Defined.

(** ** Loading the run state *)

(** C10. When the read of the [meta] field raises a [ResponseError] whose
    text does not contain WRONGTYPE, [RedBeatSchedulerEntry.load] neither
    returns nor raises that error again: it goes on to test the local
    variable [meta], which was never assigned, and fails with an
    unbound-local error. *)
Theorem entry_load_unbound_meta (task_name : string) (w w' : world) (msg : string) :
  rdb.hget task_name "meta" w = (Raise (ResponseError msg), w') ->
  contains "WRONGTYPE" msg = false ->
  RedBeatSchedulerEntry_load task_name w = (Raise (UnboundLocalError "meta"), w').
Proof.
  intros Hget Hother.
  unfold RedBeatSchedulerEntry_load, bind, try_except. rewrite Hget. simpl.
  by rewrite Hother.
Qed.

Lemma entry_load_unbound_meta_witness :
  RedBeatSchedulerEntry_load "redbeat:foo" loading_world
  = (Raise (UnboundLocalError "meta"), loading_world).
Proof.
  apply (entry_load_unbound_meta "redbeat:foo" loading_world loading_world
           "LOADING Redis is loading the dataset in memory").
  - reflexivity.
  - reflexivity.
Defined.

(** ** Disabled entries *)

(** C9. An entry whose record is disabled is never due: [is_due] answers
    [(False, 5.0)] whatever its [last_run_at], its [total_run_count] and
    the current time are. *)
Theorem disabled_is_not_due celery_is_due (self : RedBeatSchedulerEntry) (w : world) :
  getattr (_task self) "enabled" = AVal (PBool false) ->
  RedBeatSchedulerEntry_is_due celery_is_due self w = (Ok (false, 5 # 1), w).
Proof.
  intros H. unfold RedBeatSchedulerEntry_is_due. by rewrite H.
Qed.

Lemma disabled_is_not_due_witness :
  RedBeatSchedulerEntry_is_due (fun _ _ _ => (true, 0 # 1)) disabled_entry
    (mkWorld ∅ ∅ ∅ ∅ None [] 99000000000)
  = (Ok (false, 5 # 1), mkWorld ∅ ∅ ∅ ∅ None [] 99000000000).
Proof.
  apply (disabled_is_not_due (fun _ _ _ => (true, 0 # 1)) disabled_entry).
  reflexivity.
Defined.

(** ** Reserving an entry *)

(** C3. [reserve] returns the entry advanced by one run: its
    [total_run_count] is one more, its [last_run_at] is the current time,
    the new run state is written under the [meta] field of the entry's
    key and the index holds the entry's name at its new due time. *)
Theorem reserve_advances remaining_estimate (entry : RedBeatSchedulerEntry)
    (w : world) (n : string) (count : Z) (h : gmap string wire) :
  name entry = AVal (PStr n) ->
  total_run_count entry = PInt count ->
  rdb_fault w = None ->
  hash_at w n = Some h ->
  let now := clock w in
  let new_entry := advanced entry now count in
  let due := to_timestamp (now + remaining_estimate (schedule entry) now now) in
  RedBeatScheduler_reserve remaining_estimate entry w =
    (Ok new_entry,
     mkWorld (<[ n := RHash (<[ "meta" := json_dumps (run_state now (count + 1)) ]> h) ]>
                (rdb_keys w))
             (rdb_deletes w) (rdb_updates w)
             (<[ n := due ]> (rdb_schedule w))
             (rdb_fault w) (logger w) (clock w)) /\
  total_run_count new_entry = PInt (count + 1) /\
  last_run_at new_entry = PDate now.
Proof.
  intros Hn Hc Hf Hh now new_entry due. split; [|done].
  unfold RedBeatScheduler_reserve, RedBeatSchedulerEntry_next,
    RedBeatSchedulerEntry_save, RedBeatSchedulerEntry_due_at.
  unfold bind, ret, lift, _default_now. cbn [total_run_count name last_run_at schedule].
  rewrite Hc. cbn [incr]. rewrite Hn. cbn [as_key].
  erewrite hset_ok; [|done|exact Hh].
  cbn [last_run_at name as_key]. rewrite zadd_ok by done.
  subst new_entry due now. unfold advanced, run_state. rewrite Hn. reflexivity.
Qed.

Lemma reserve_advances_witness :
  let w := mkWorld ∅ ∅ ∅ ∅ None [] 31000000 in
  RedBeatScheduler_reserve sample_remaining foo_entry w =
    (Ok (advanced foo_entry 31000000 7),
     mkWorld {[ "redbeat:foo" := RHash {[ "meta" := json_dumps (run_state 31000000 8) ]} ]}
             ∅ ∅ {[ "redbeat:foo" := 61 ]} None [] 31000000) /\
  total_run_count (advanced foo_entry 31000000 7) = PInt 8 /\
  last_run_at (advanced foo_entry 31000000 7) = PDate 31000000.
Proof.
  apply (reserve_advances sample_remaining foo_entry
           (mkWorld ∅ ∅ ∅ ∅ None [] 31000000) "redbeat:foo" 7 ∅).
  - reflexivity.
  - reflexivity.
  - reflexivity.
  - reflexivity.
Defined.

Lemma view_view w : view (view w) = view w.
Proof. reflexivity. Qed.

Lemma reads_only_ret {A} (a : A) : reads_only (ret a).
Proof. done. Qed.

Lemma reads_only_raise {A} e : reads_only (@raise A e).
Proof. done. Qed.

Lemma reads_only_lift {A} (r : result A) : reads_only (lift r).
Proof. done. Qed.

Lemma reads_only_bind {A B} (c : M A) (k : A -> M B) :
  reads_only c -> (forall a, reads_only (k a)) -> reads_only (bind c k).
Proof.
  intros Hc Hk w. unfold bind.
  rewrite (Hc w), (Hc (view w)), view_view.
  destruct (c (view w)).1 as [a|e]; simpl; [apply Hk|done].
Qed.

Lemma reads_only_try {A} (c : M A) handled (h : exn -> M A) :
  reads_only c -> (forall e, reads_only (h e)) -> reads_only (try_except c handled h).
Proof.
  intros Hc Hh w. unfold try_except.
  rewrite (Hc w), (Hc (view w)), view_view.
  destruct (c (view w)).1 as [a|e]; simpl; [done|].
  destruct (handled e); [apply Hh|done].
Qed.

Lemma reads_only_hget key field : reads_only (rdb.hget key field).
Proof.
  intros w. unfold rdb.hget, command. simpl.
  destruct (rdb_fault w); [done|].
  by destruct (rdb_keys w !! key) as [[?|?]|].
Qed.

Lemma reads_only_get key : reads_only (rdb.get key).
Proof.
  intros w. unfold rdb.get, command. simpl.
  destruct (rdb_fault w); [done|].
  by destruct (rdb_keys w !! key) as [[?|?]|].
Qed.

Lemma reads_only_now : reads_only _default_now.
Proof. done. Qed.

Create HintDb reads_only.
#[export] Hint Resolve reads_only_ret reads_only_raise reads_only_lift
  reads_only_hget reads_only_get reads_only_now : reads_only.

Ltac reads_only :=
  repeat first
    [ apply reads_only_bind; [|intros ?]
    | apply reads_only_try; [|intros ?]
    | progress auto with reads_only
    | match goal with
      | |- reads_only (if ?b then _ else _) => destruct b
      | |- reads_only (match ?x with _ => _ end) => destruct x
      end ].

Lemma reads_only_load task_name : reads_only (PeriodicTask_load task_name).
Proof. unfold PeriodicTask_load. reads_only. Qed.

Lemma reads_only_from_key prefix task_name :
  reads_only (PeriodicTask_from_key prefix task_name).
Proof.
  unfold PeriodicTask_from_key. apply reads_only_bind; [apply reads_only_load|].
  intros. apply reads_only_lift.
Qed.

Lemma reads_only_entry_load task_name : reads_only (RedBeatSchedulerEntry_load task_name).
Proof. unfold RedBeatSchedulerEntry_load. reads_only. Qed.

Lemma reads_only_entry_init t : reads_only (RedBeatSchedulerEntry_init t).
Proof.
  unfold RedBeatSchedulerEntry_init.
  apply reads_only_bind; [apply reads_only_lift|intros ?].
  apply reads_only_bind; [apply reads_only_lift|intros ?].
  apply reads_only_bind; [apply reads_only_entry_load|intros ?].
  reads_only.
Qed.

Lemma reads_only_entry_from_key prefix task_name :
  reads_only (RedBeatSchedulerEntry_from_key prefix task_name).
Proof.
  unfold RedBeatSchedulerEntry_from_key.
  apply reads_only_bind; [apply reads_only_from_key|intros ?].
  apply reads_only_entry_init.
Qed.

Lemma spop_ok k w :
  rdb_fault w = None ->
  (get_set k w = ∅ /\ rdb.spop k w = (Ok None, w)) \/
  (exists x, x ∈ get_set k w /\
             elements (get_set k w) ≡ₚ x :: elements (get_set k w ∖ {[ x ]}) /\
             rdb.spop k w = (Ok (Some x), put_set k (get_set k w ∖ {[ x ]}) w)).
Proof.
  intros Hf. unfold rdb.spop, command. rewrite Hf.
  destruct (elements (get_set k w)) as [|x l] eqn:He.
  - left. split; [|done]. by apply elements_empty_inv, leibniz_equiv in He.
  - right. exists x.
    assert (x ∈ get_set k w) as Hx.
    { apply elem_of_elements. rewrite He. by left. }
    split; [done|]. split; [|done].
    rewrite <- He.
    rewrite <- elements_union_singleton by set_solver.
    assert ({[x]} ∪ get_set k w ∖ {[x]} = get_set k w) as ->; [|done].
    apply leibniz_equiv. apply set_equiv. intros y.
    destruct (decide (y = x)) as [->|]; set_solver.
Qed.

Lemma popped_some x : x <> "" -> popped (Some x) = Some x.
Proof.
  intros Hx. unfold popped. destruct (String.eqb x "") eqn:E; [|done].
  by apply String.eqb_eq in E.
Qed.

Lemma drain_deletes_spec fuel : forall w,
  rdb_fault w = None ->
  "" ∉ rdb_deletes w ->
  (size (rdb_deletes w) < fuel)%nat ->
  exists w' ds,
    drain_deletes fuel w = Some (Ok tt, w') /\
    ds ≡ₚ elements (rdb_deletes w) /\
    logger w' = (logger w ++ (log_debug "deleting %s" <$> ds))%list /\
    rdb_deletes w' = ∅ /\
    rdb_updates w' = rdb_updates w /\
    rdb_keys w' = rdb_keys w /\ rdb_fault w' = rdb_fault w /\ clock w' = clock w /\
    forall k, rdb_schedule w' !! k =
              if decide (k ∈ rdb_deletes w) then None else rdb_schedule w !! k.
Proof.
  induction fuel as [|fuel IH]; intros w Hf Hne Hsz; [lia|].
  cbn [drain_deletes].
  destruct (spop_ok REDBEAT_DELETES_KEY w Hf) as [[Hemp ->]|(x & Hx & Hperm & ->)];
    cbn [get_set put_set] in *.
  - exists w, []. rewrite Hemp, elements_empty, app_nil_r.
    repeat split; try done.
  - rewrite popped_some by (intros ->; done).
    unfold bind, emit. rewrite zrem_ok by done.
    set (w2 := set_schedule _ _).
    destruct (IH w2) as (w' & ds & Hrun & Hds & Hlog & Hd & Hu & Hk & Hfl & Hc & Hix).
    + done.
    + subst w2. simpl. set_solver.
    + subst w2. simpl.
      assert (size (rdb_deletes w) = S (size (rdb_deletes w ∖ {[x]}))); [|lia].
      assert (rdb_deletes w = {[x]} ∪ rdb_deletes w ∖ {[x]}) as Heq.
      { apply leibniz_equiv, set_equiv. intros y.
        destruct (decide (y = x)) as [->|]; set_solver. }
      rewrite Heq at 1. rewrite size_union by set_solver.
      by rewrite size_singleton.
    + exists w', (x :: ds). rewrite Hrun. subst w2. simpl in *.
      repeat split; try done.
      * rewrite Hperm. apply Permutation_skip. exact Hds.
      * rewrite Hlog. by rewrite <- app_assoc.
      * intros k. rewrite Hix.
        destruct (decide (k = x)) as [->|Hkx].
        -- rewrite lookup_delete_eq.
           repeat case_decide; try done; set_solver.
        -- rewrite lookup_delete_ne by done.
           repeat case_decide; try done; set_solver.
Qed.

Lemma update_entry_spec prefix re u w :
  rdb_fault w = None ->
  updatable prefix (view w) u ->
  update_entry prefix re u w =
    (Ok tt, set_schedule (upsert u (due_of prefix re (view w) u))
                         (logged (log_debug "updating %s" u) w)).
Proof.
  intros Hf Hu. unfold update_entry, bind, emit, try_except. fold (logged (log_debug "updating %s" u) w).
  set (w1 := logged _ w).
  rewrite (reads_only_entry_from_key prefix u w1).
  change (view w1) with (view w). unfold due_of.
  destruct Hu as [[k Hk]|(entry & t & He & Hn & Hl)].
  - rewrite Hk. simpl. by destruct w1.
  - rewrite He. simpl. unfold RedBeatSchedulerEntry_due_at. rewrite Hl.
    unfold bind, _default_now, ret, lift. rewrite Hn. simpl.
    rewrite zadd_ok by done. reflexivity.
Qed.

Lemma drain_updates_spec prefix re fuel : forall w,
  rdb_fault w = None ->
  "" ∉ rdb_updates w ->
  (size (rdb_updates w) < fuel)%nat ->
  (forall u, u ∈ rdb_updates w -> updatable prefix (view w) u) ->
  exists w' us,
    drain_updates prefix re fuel w = Some (Ok tt, w') /\
    us ≡ₚ elements (rdb_updates w) /\
    logger w' = (logger w ++ (log_debug "updating %s" <$> us))%list /\
    rdb_updates w' = ∅ /\
    rdb_deletes w' = rdb_deletes w /\
    rdb_keys w' = rdb_keys w /\ rdb_fault w' = rdb_fault w /\ clock w' = clock w /\
    forall k, rdb_schedule w' !! k =
      match (if decide (k ∈ rdb_updates w)
             then due_of prefix re (view w) k else None) with
      | Some score => Some score
      | None => rdb_schedule w !! k
      end.
Proof.
  induction fuel as [|fuel IH]; intros w Hf Hne Hsz Hup; [lia|].
  cbn [drain_updates].
  destruct (spop_ok REDBEAT_UPDATES_KEY w Hf) as [[Hemp ->]|(x & Hx & Hperm & ->)];
    cbn [get_set put_set] in *.
  - exists w, []. rewrite Hemp, elements_empty, app_nil_r.
    repeat split; try done.
  - rewrite popped_some by (intros ->; done).
    set (w1 := mkWorld _ _ _ _ _ _ _).
    rewrite (update_entry_spec prefix re x w1) by (try done; by apply Hup).
    change (view w1) with (view w).
    set (w2 := set_schedule _ _).
    destruct (IH w2) as (w' & us & Hrun & Hus & Hlog & Hu & Hd & Hk & Hfl & Hc & Hix).
    + done.
    + subst w2 w1. simpl. set_solver.
    + subst w2 w1. simpl.
      assert (size (rdb_updates w) = S (size (rdb_updates w ∖ {[x]}))); [|lia].
      assert (rdb_updates w = {[x]} ∪ rdb_updates w ∖ {[x]}) as Heq.
      { apply leibniz_equiv, set_equiv. intros y.
        destruct (decide (y = x)) as [->|]; set_solver. }
      rewrite Heq at 1. rewrite size_union by set_solver.
      by rewrite size_singleton.
    + intros u Hu. change (view w2) with (view w). apply Hup.
      subst w2 w1. simpl in Hu. set_solver.
    + exists w', (x :: us). rewrite Hrun.
      change (view w2) with (view w) in Hix.
      subst w2 w1. simpl in *.
      repeat split; try done.
      * rewrite Hperm. apply Permutation_skip. exact Hus.
      * rewrite Hlog. by rewrite <- app_assoc.
      * intros k. rewrite Hix.
        destruct (decide (k = x)) as [->|Hkx].
        -- rewrite decide_False by set_solver.
           rewrite decide_True by done.
           unfold upsert. destruct (due_of prefix re (view w) x); [|done].
           by rewrite lookup_insert_eq.
        -- assert (upsert x (due_of prefix re (view w) x) (rdb_schedule w) !! k
                   = rdb_schedule w !! k) as ->.
           { unfold upsert. destruct (due_of _ _ _ x); [|done].
             by rewrite lookup_insert_ne. }
           repeat case_decide; try done; set_solver.
Qed.

Lemma delete_inv (self : PeriodicTask) n w1 w :
  getattr self "name" = AVal (PStr n) ->
  PeriodicTask_delete self w1 = (Ok tt, w) ->
  rdb_fault w = None /\ n ∈ rdb_deletes w /\ rdb_keys w !! n = None.
Proof.
  intros Hn. unfold PeriodicTask_delete, bind, lift. rewrite Hn. simpl.
  unfold rdb.sadd, rdb.delete, command. simpl.
  destruct (rdb_fault w1) eqn:Hf; [discriminate|]. simpl.
  intros [= <-]. simpl. split; [done|]. split; [set_solver|].
  apply lookup_delete_eq.
Qed.

Lemma due_of_absent prefix re w n :
  rdb_fault w = None -> rdb_keys w !! n = None ->
  due_of prefix re (view w) n = None.
Proof.
  intros Hf Hk. unfold due_of, RedBeatSchedulerEntry_from_key,
    PeriodicTask_from_key, bind.
  rewrite (load_no_data n (view w)); [done|done|]. by left.
Qed.

(** ** Reconciling the index *)

Lemma update_schedule_spec prefix re (w : world) :
  rdb_fault w = None ->
  "" ∉ rdb_deletes w -> "" ∉ rdb_updates w ->
  (forall u, u ∈ rdb_updates w -> updatable prefix (view w) u) ->
  exists w' ds us,
    RedBeatScheduler_update_schedule prefix re w = Some (Ok tt, w') /\
    ds ≡ₚ elements (rdb_deletes w) /\
    us ≡ₚ elements (rdb_updates w) /\
    logger w' = (logger w ++ (log_debug "deleting %s" <$> ds)
                          ++ (log_debug "updating %s" <$> us))%list /\
    rdb_deletes w' = ∅ /\
    rdb_updates w' = ∅ /\
    view w' = view w /\
    (forall k, rdb_schedule w' !! k =
       match (if decide (k ∈ rdb_updates w)
              then due_of prefix re (view w) k else None) with
       | Some score => Some score
       | None => if decide (k ∈ rdb_deletes w) then None
                 else rdb_schedule w !! k
       end).
Proof.
  intros Hf Hd0 Hu0 Hup.
  unfold RedBeatScheduler_update_schedule.
  destruct (drain_deletes_spec (S (size (rdb_deletes w))) w Hf Hd0 ltac:(lia))
    as (w1 & ds & Hrun1 & Hds & Hlog1 & Hd1 & Hu1 & Hk1 & Hf1 & Hc1 & Hix1).
  rewrite Hrun1.
  assert (view w1 = view w) as Hview.
  { unfold view. by rewrite Hk1, Hf1, Hc1. }
  destruct (drain_updates_spec prefix re (S (size (rdb_updates w1))) w1)
    as (w2 & us & Hrun2 & Hus & Hlog2 & Hu2 & Hd2 & Hk2 & Hf2 & Hc2 & Hix2).
  { congruence. }
  { by rewrite Hu1. }
  { lia. }
  { intros u Hu. rewrite Hview. apply Hup. by rewrite <- Hu1. }
  exists w2, ds, us. rewrite Hrun2.
  repeat split; try done.
  - by rewrite <- Hu1.
  - rewrite Hlog2, Hlog1. by rewrite <- app_assoc.
  - congruence.
  - rewrite <- Hview. unfold view. by rewrite Hk2, Hf2, Hc2.
  - intros k. rewrite Hix2, Hview, Hu1, Hix1. done.
Qed.

(** C4. One [update_schedule] pops every pending delete and removes it
    from the index, and only then pops the pending updates; an update
    whose record does not load any more is passed over.  Both pending
    sets are empty afterwards, and a record that was saved and then
    deleted is in neither of them and not in the index. *)
Theorem update_schedule_deletes_before_updates prefix re (w : world) :
  rdb_fault w = None ->
  "" ∉ rdb_deletes w -> "" ∉ rdb_updates w ->
  (forall u, u ∈ rdb_updates w -> updatable prefix (view w) u) ->
  exists w' ds us,
    RedBeatScheduler_update_schedule prefix re w = Some (Ok tt, w') /\
    ds ≡ₚ elements (rdb_deletes w) /\
    us ≡ₚ elements (rdb_updates w) /\
    logger w' = (logger w ++ (log_debug "deleting %s" <$> ds)
                          ++ (log_debug "updating %s" <$> us))%list /\
    rdb_deletes w' = ∅ /\
    rdb_updates w' = ∅ /\
    (forall k, rdb_schedule w' !! k =
       match (if decide (k ∈ rdb_updates w)
              then due_of prefix re (view w) k else None) with
       | Some score => Some score
       | None => if decide (k ∈ rdb_deletes w) then None
                 else rdb_schedule w !! k
       end) /\
    (forall (self : PeriodicTask) w0 w1 n,
       getattr self "name" = AVal (PStr n) ->
       PeriodicTask_save self w0 = (Ok tt, w1) ->
       PeriodicTask_delete self w1 = (Ok tt, w) ->
       rdb_schedule w' !! n = None /\
       (n ∉ rdb_deletes w') /\ (n ∉ rdb_updates w')).
Proof.
  intros Hf Hd0 Hu0 Hup.
  destruct (update_schedule_spec prefix re w Hf Hd0 Hu0 Hup)
    as (w' & ds & us & Hrun & Hds & Hus & Hlog & Hd & Hu & _ & Hix).
  exists w', ds, us. repeat split; try done.
  - destruct (delete_inv _ _ _ _ H H1) as (_ & Hin & Habs).
    rewrite Hix. rewrite (due_of_absent prefix re w n Hf Habs).
    rewrite (decide_True (P := n ∈ rdb_deletes w)) by done.
    by destruct (decide _).
  - rewrite Hd. set_solver.
  - rewrite Hu. set_solver.
Qed.

Lemma update_schedule_deletes_before_updates_witness :
  exists w',
    RedBeatScheduler_update_schedule "redbeat:" sample_remaining bar_deleted
      = Some (Ok tt, w') /\
    rdb_deletes w' = ∅ /\ rdb_updates w' = ∅ /\
    rdb_schedule w' !! "redbeat:bar" = None /\
    rdb_schedule w' !! "redbeat:foo" = Some 31.
Proof.
  destruct (update_schedule_deletes_before_updates "redbeat:" sample_remaining
              bar_deleted) as (w' & ds & us & Hrun & _ & _ & _ & Hd & Hu & Hix & Hbar).
  - vm_compute. reflexivity.
  - apply (bool_decide_unpack _). vm_compute. exact I.
  - apply (bool_decide_unpack _). vm_compute. exact I.
  - intros u Hu.
    assert (u = "redbeat:bar" \/ u = "redbeat:foo") as [-> | ->].
    { assert (rdb_updates bar_deleted = {[ "redbeat:bar" ]} ∪ {[ "redbeat:foo" ]}) as Heq
        by (vm_compute; reflexivity).
      rewrite Heq in Hu. clear Heq.
      apply elem_of_union in Hu as [Hu|Hu]; apply elem_of_singleton in Hu; auto. }
    + left. eexists. vm_compute. reflexivity.
    + right. eexists. eexists. split; [vm_compute; reflexivity|].
      split; reflexivity.
  - exists w'. split; [exact Hrun|]. split; [exact Hd|]. split; [exact Hu|].
    split.
    + apply (Hbar bar_task before_bar bar_saved "redbeat:bar");
        vm_compute; reflexivity.
    + rewrite Hix. vm_compute. reflexivity.
Defined.

Lemma elem_of_insert_by_score x a l :
  x ∈ insert_by_score a l <-> x = a \/ x ∈ l.
Proof.
  induction l as [|b l IH]; simpl.
  - set_solver.
  - destruct (score_le a b); [set_solver|].
    rewrite elem_of_cons, IH, elem_of_cons. tauto.
Qed.

Lemma elem_of_sort_by_score x l : x ∈ sort_by_score l <-> x ∈ l.
Proof.
  unfold sort_by_score. induction l as [|a l IH]; simpl; [done|].
  rewrite elem_of_insert_by_score, IH, elem_of_cons. tauto.
Qed.

Lemma zrangebyscore_ok k lo hi w :
  rdb_fault w = None ->
  exists l, zrangebyscore k lo hi w = (Ok l, w) /\
    forall x, x ∈ l <->
      exists score, rdb_schedule w !! x = Some score /\ lo <= score <= hi.
Proof.
  intros Hf. unfold zrangebyscore, command. rewrite Hf.
  eexists. split; [reflexivity|].
  intros x. rewrite list_elem_of_fmap. split.
  - intros ([x' sc] & -> & Hin).
    apply (proj1 (elem_of_sort_by_score _ _)) in Hin.
    apply (proj1 (list_elem_of_In _ _)) in Hin.
    apply (proj1 (filter_In _ _ _)) in Hin as [Hin Hr].
    apply (proj2 (list_elem_of_In _ _)) in Hin.
    apply (proj1 (elem_of_map_to_list _ _ _)) in Hin.
    exists sc. split; [done|]. simpl in Hr. lia.
  - intros (sc & Hsc & Hr). exists (x, sc). split; [done|].
    apply (proj2 (elem_of_sort_by_score _ _)).
    apply (proj2 (list_elem_of_In _ _)).
    apply (proj2 (filter_In _ _ _)). split.
    + apply (proj1 (list_elem_of_In _ _)).
      by apply (proj2 (elem_of_map_to_list _ _ _)).
    + simpl. lia.
Qed.


Lemma schedule_changed_ok w :
  rdb_fault w = None ->
  exists n, RedBeatScheduler_schedule_changed w = (Ok n, w) /\
            (n = 0%nat <-> nothing_pending w).
Proof.
  intros Hf. unfold RedBeatScheduler_schedule_changed, bind, rdb.scard, command, ret.
  rewrite Hf. simpl.
  destruct (size (rdb_deletes w)) as [|n] eqn:Hd; simpl.
  - rewrite Hf. eexists. split; [reflexivity|].
    apply size_empty_inv, leibniz_equiv in Hd.
    unfold nothing_pending. split.
    + intros Hu. apply size_empty_inv, leibniz_equiv in Hu. done.
    + intros [_ ->]. apply size_empty.
  - eexists. split; [reflexivity|]. split; [done|].
    intros [Hd' _]. rewrite Hd', size_empty in Hd. done.
Qed.


(** ** The schedule of a tick *)



(** ** Failures of one task in a bulk operation *)

Lemma keeps_view_reads_only {A} (c : M A) : reads_only c -> keeps_view c.
Proof. intros Hc w. by rewrite (Hc w). Qed.

Lemma keeps_view_bind {A B} (c : M A) (k : A -> M B) :
  keeps_view c -> (forall a, keeps_view (k a)) -> keeps_view (bind c k).
Proof.
  intros Hc Hk w. unfold bind. specialize (Hc w).
  destruct (c w) as [[a|e] w1]; simpl in *; [|done].
  by rewrite Hk.
Qed.

Lemma keeps_view_emit r : keeps_view (emit r).
Proof. done. Qed.

Lemma keeps_view_zadd k score member : keeps_view (rdb.zadd k score member).
Proof. intros w. unfold rdb.zadd, command. by destruct (rdb_fault w). Qed.

Lemma reads_only_due_at re e : reads_only (RedBeatSchedulerEntry_due_at re e).
Proof. unfold RedBeatSchedulerEntry_due_at. reads_only. Qed.

Lemma keeps_view_load_task prefix re x : keeps_view (load_task prefix re x).
Proof.
  unfold load_task. apply keeps_view_bind.
  { apply keeps_view_reads_only. apply reads_only_try; [|intros; apply reads_only_ret].
    apply reads_only_bind; [apply reads_only_from_key|intros; apply reads_only_ret]. }
  intros [t|]; [|by apply keeps_view_reads_only, reads_only_ret].
  apply keeps_view_bind; [apply keeps_view_reads_only, reads_only_lift|intros ?].
  apply keeps_view_bind; [apply keeps_view_emit|intros ?].
  apply keeps_view_bind; [apply keeps_view_reads_only, reads_only_entry_init|intros ?].
  apply keeps_view_bind; [apply keeps_view_reads_only, reads_only_due_at|intros ?].
  apply keeps_view_bind; [apply keeps_view_reads_only, reads_only_lift|intros ?].
  apply keeps_view_zadd.
Qed.

Lemma load_task_not_found prefix re x w k :
  (PeriodicTask_from_key prefix x (view w)).1 = Raise (KeyError k) ->
  load_task prefix re x w = (Ok tt, w).
Proof.
  intros H. unfold load_task, bind, try_except.
  rewrite (reads_only_from_key prefix x w), H. done.
Qed.

Lemma for_each_skips_not_found prefix re l1 : forall x l2 w k,
  (PeriodicTask_from_key prefix x (view w)).1 = Raise (KeyError k) ->
  for_each (load_task prefix re) (l1 ++ x :: l2) w
  = for_each (load_task prefix re) (l1 ++ l2) w.
Proof.
  induction l1 as [|a l1 IH]; intros x l2 w k Hx; simpl.
  - unfold bind. by rewrite (load_task_not_found _ _ _ _ _ Hx).
  - unfold bind. pose proof (keeps_view_load_task prefix re a w) as Hv.
    destruct (load_task prefix re a w) as [[[]|e] w1]; [|done].
    simpl in Hv. apply (IH x l2 w1 k). by rewrite Hv.
Qed.

Lemma update_entry_not_found prefix re x w k :
  (RedBeatSchedulerEntry_from_key prefix x (view w)).1 = Raise (KeyError k) ->
  update_entry prefix re x w = (Ok tt, logged (log_debug "updating %s" x) w).
Proof.
  intros H. unfold update_entry, bind, emit, try_except.
  fold (logged (log_debug "updating %s" x) w).
  rewrite (reads_only_entry_from_key prefix x (logged _ w)).
  change (view (logged (log_debug "updating %s" x) w)) with (view w).
  by rewrite H.
Qed.

(** C7 (amended). In [load_from_database] and in [update_schedule] a task
    whose record is not found ([KeyError]) is passed over, without any
    log record of the failure, and the other tasks of the batch are
    processed as if it had not been there. *)
Theorem not_found_tasks_are_skipped prefix re :
  (forall l1 x l2 w k,
     (PeriodicTask_from_key prefix x (view w)).1 = Raise (KeyError k) ->
     for_each (load_task prefix re) (l1 ++ x :: l2) w
     = for_each (load_task prefix re) (l1 ++ l2) w) /\
  (forall x w k,
     (RedBeatSchedulerEntry_from_key prefix x (view w)).1 = Raise (KeyError k) ->
     update_entry prefix re x w = (Ok tt, logged (log_debug "updating %s" x) w)) /\
  (forall w,
     rdb_fault w = None ->
     "" ∉ rdb_deletes w -> "" ∉ rdb_updates w ->
     (forall u, u ∈ rdb_updates w -> updatable prefix (view w) u) ->
     exists w' ds us,
       RedBeatScheduler_update_schedule prefix re w = Some (Ok tt, w') /\
       ds ≡ₚ elements (rdb_deletes w) /\
       us ≡ₚ elements (rdb_updates w) /\
       logger w' = (logger w ++ (log_debug "deleting %s" <$> ds)
                             ++ (log_debug "updating %s" <$> us))%list /\
       rdb_updates w' = ∅ /\
       forall u score,
         u ∈ rdb_updates w -> due_of prefix re (view w) u = Some score ->
         rdb_schedule w' !! u = Some score).
Proof.
  split; [|split].
  - intros l1 x l2 w k. apply for_each_skips_not_found.
  - intros x w k. apply update_entry_not_found.
  - intros w Hf Hd Hu Hup.
    destruct (update_schedule_spec prefix re w Hf Hd Hu Hup)
      as (w' & ds & us & Hrun & Hds & Hus & Hlog & _ & Hu' & _ & Hix).
    exists w', ds, us. repeat split; try done.
    intros u score Hin Hdue. rewrite Hix.
    rewrite decide_True by done. by rewrite Hdue.
Qed.

Lemma not_found_tasks_are_skipped_witness :
  for_each (load_task "redbeat:" sample_remaining)
           ["redbeat:gone"; "redbeat:foo"] before_bar
  = for_each (load_task "redbeat:" sample_remaining) ["redbeat:foo"] before_bar /\
  update_entry "redbeat:" sample_remaining "redbeat:bar" bar_deleted
  = (Ok tt, logged (log_debug "updating %s" "redbeat:bar") bar_deleted) /\
  exists w',
    RedBeatScheduler_update_schedule "redbeat:" sample_remaining bar_deleted
    = Some (Ok tt, w') /\
    rdb_updates w' = ∅ /\
    rdb_schedule w' !! "redbeat:foo" = Some 31.
Proof.
  pose proof (not_found_tasks_are_skipped "redbeat:" sample_remaining)
    as (Hseed & Hone & Hall).
  split; [|split].
  - apply (Hseed [] "redbeat:gone" ["redbeat:foo"] before_bar "redbeat:gone").
    vm_compute. reflexivity.
  - apply (Hone "redbeat:bar" bar_deleted "redbeat:bar").
    vm_compute. reflexivity.
  - destruct (Hall bar_deleted) as (w' & ds & us & Hrun & _ & _ & _ & Hu & Hix).
    + vm_compute. reflexivity.
    + apply (bool_decide_unpack _). vm_compute. exact I.
    + apply (bool_decide_unpack _). vm_compute. exact I.
    + intros u Hu.
      assert (u = "redbeat:bar" \/ u = "redbeat:foo") as [-> | ->].
      { assert (rdb_updates bar_deleted = {[ "redbeat:bar" ]} ∪ {[ "redbeat:foo" ]}) as Heq
          by (vm_compute; reflexivity).
        rewrite Heq in Hu. clear Heq.
        apply elem_of_union in Hu as [Hu|Hu]; apply elem_of_singleton in Hu; auto. }
      * left. eexists. vm_compute. reflexivity.
      * right. eexists. eexists. split; [vm_compute; reflexivity|].
        split; reflexivity.
    + exists w'. split; [exact Hrun|]. split; [exact Hu|].
      apply Hix.
      * apply (bool_decide_unpack _). vm_compute. exact I.
      * vm_compute. reflexivity.
Defined.

(** C7, as stated, fails: seeding the index from a namespace that holds
    one record without a policy and the well-formed record [foo] ends
    with the exception of the first one; nothing but the opening line is
    logged and [foo] never reaches the index. *)
Lemma malformed_record_stops_seeding :
  (exists e,
     (RedBeatSchedulerEntry_from_key "redbeat:" "redbeat:foo" seed_world).1 = Ok e) /\
  (RedBeatScheduler_load_from_database "redbeat:" sample_remaining seed_world).1
    = Raise (UnboundLocalError "schedule") /\
  logger (RedBeatScheduler_load_from_database "redbeat:" sample_remaining seed_world).2
    = [log_info "Reading PeriodicTasks from Redis"] /\
  rdb_schedule
    (RedBeatScheduler_load_from_database "redbeat:" sample_remaining seed_world).2
    !! "redbeat:foo" = None.
Proof.
  split; [|split; [|split]].
  - eexists. vm_compute. reflexivity.
  - vm_compute. reflexivity.
  - vm_compute. reflexivity.
  - vm_compute. reflexivity.
Qed.

(** ** Records built from a dictionary *)

Lemma from_dict_inv prefix d t :
  PeriodicTask_from_dict prefix d = Ok t ->
  exists dd pol base,
    d = PDict dd /\
    ((exists i, pol = AInterval i /\ truthy (dict_get dd "crontab") = false) \/
     (exists c, pol = ACrontab c /\ truthy (dict_get dd "crontab") = true)) /\
    (exists n ta, dd !! "name" = Some (PStr n) /\ dd !! "task" = Some ta /\
       PeriodicTask_init prefix (PStr n) ta pol PNone (PBool true) (PList []) (PDict ∅)
       = Ok (mkTask base)) /\
    t = mkTask ((AVal <$> filter (fun kv => kv.1 ∉ not_copied) dd) ∪ base).
Proof.
  unfold PeriodicTask_from_dict. destruct d as [| | | | | | |dd]; try discriminate.
  intros H. exists dd.
  match type of H with rbind ?x _ = _ => destruct x as [s0|e] eqn:Hs0 end;
    [|discriminate].
  cbn [rbind] in H.
  match type of H with rbind ?x _ = _ => destruct x as [s1|e] eqn:Hs1 end;
    [|discriminate].
  cbn [rbind] in H.
  unfold subscript in H.
  destruct (dd !! "name") as [nm|] eqn:Hn; [|discriminate]. cbn [rbind] in H.
  destruct (dd !! "task") as [ta|] eqn:Ht; [|discriminate]. cbn [rbind] in H.
  destruct s1 as [pol|]; [|discriminate]. cbn [rbind] in H.
  destruct (PeriodicTask_init prefix nm ta pol PNone (PBool true) (PList []) (PDict ∅))
    as [[base]|e] eqn:Hinit; [|discriminate].
  cbn [rbind dict] in H. injection H as <-.
  exists pol, base. split; [done|].
  assert (exists n, nm = PStr n) as [n ->].
  { unfold PeriodicTask_init in Hinit. destruct nm; try discriminate. eauto. }
  split; [|split; [eauto|done]].
  destruct (truthy (dict_get dd "crontab")).
  - right.
    destruct (subscript (PDict dd) "crontab") as [c|]; [|discriminate].
    cbn [rbind] in Hs1.
    destruct (subscript c "minute"); [|discriminate]. cbn [rbind] in Hs1.
    destruct (subscript c "hour"); [|discriminate]. cbn [rbind] in Hs1.
    destruct (subscript c "day_of_week"); [|discriminate]. cbn [rbind] in Hs1.
    destruct (subscript c "day_of_month"); [|discriminate]. cbn [rbind] in Hs1.
    destruct (subscript c "month_of_year"); [|discriminate]. cbn [rbind] in Hs1.
    injection Hs1 as <-. eauto.
  - left. injection Hs1 as ->.
    destruct (truthy (dict_get dd "interval")); [|discriminate].
    destruct (subscript (PDict dd) "interval") as [i|]; [|discriminate].
    cbn [rbind] in Hs0.
    destruct (subscript i "every"); [|discriminate]. cbn [rbind] in Hs0.
    destruct (subscript i "period"); [|discriminate]. cbn [rbind] in Hs0.
    injection Hs0 as <-. eauto.
Qed.

Lemma init_base prefix n ta pol base :
  PeriodicTask_init prefix (PStr n) ta pol PNone (PBool true) (PList []) (PDict ∅)
  = Ok (mkTask base) ->
  base !! "interval" = (match pol with AInterval _ => Some pol | _ => None end) /\
  base !! "crontab" = (match pol with ACrontab _ => Some pol | _ => None end).
Proof.
  unfold PeriodicTask_init. simpl. intros [= <-].
  destruct pol; split; reflexivity.
Qed.

Lemma not_copied_lookup (dd : gmap string pyval) (base : gmap string attr) k :
  k ∈ not_copied ->
  ((AVal <$> filter (fun kv : string * pyval => kv.1 ∉ not_copied) dd) ∪ base) !! k
  = base !! k.
Proof.
  intros Hk. rewrite lookup_union, lookup_fmap, map_lookup_filter.
  destruct (dd !! k); simpl; [|by rewrite (left_id None _)].
  rewrite option_guard_False by (intros Hn; by apply Hn).
  simpl. by rewrite (left_id None _).
Qed.

(** Whatever the dictionary holds, a record that [from_dict] returns has
    exactly one policy object and passes [clean]; when the dictionary
    has a [crontab], that is the policy, also if it has an [interval]
    as well. *)
Theorem from_dict_one_policy prefix d t :
  PeriodicTask_from_dict prefix d = Ok t ->
  one_policy t /\
  PeriodicTask_clean t = Ok tt /\
  (forall dd, d = PDict dd -> truthy (dict_get dd "crontab") = true ->
     is_policy (getattr t "crontab") = true /\
     attr_truthy (getattr t "interval") = false).
Proof.
  intros H.
  destruct (from_dict_inv _ _ _ H)
    as (dd & pol & base & -> & Hpol & (n & ta & _ & _ & Hinit) & ->).
  destruct (init_base _ _ _ _ _ Hinit) as [Hi Hc].
  assert (getattr (mkTask ((AVal <$> filter (fun kv : string * pyval => kv.1 ∉ not_copied) dd) ∪ base)) "interval"
          = match pol with AInterval _ => pol | _ => AVal PNone end) as Hgi.
  { unfold getattr. cbn [dict].
    rewrite not_copied_lookup by (unfold not_copied; set_solver).
    rewrite Hi. by destruct pol. }
  assert (getattr (mkTask ((AVal <$> filter (fun kv : string * pyval => kv.1 ∉ not_copied) dd) ∪ base)) "crontab"
          = match pol with ACrontab _ => pol | _ => AVal PNone end) as Hgc.
  { unfold getattr. cbn [dict].
    rewrite not_copied_lookup by (unfold not_copied; set_solver).
    rewrite Hc. by destruct pol. }
  assert (one_policy (mkTask ((AVal <$> filter (fun kv : string * pyval => kv.1 ∉ not_copied) dd) ∪ base)))
    as Hone.
  { unfold one_policy. rewrite Hgi, Hgc.
    destruct Hpol as [(i & -> & _)|(c & -> & _)]; [left|right]; done. }
  split; [done|]. split; [by apply clean_one_policy|].
  intros dd' [= <-] Htruthy. rewrite Hgi, Hgc.
  destruct Hpol as [(i & -> & Hf)|(c & -> & _)]; [congruence|done].
Qed.

Lemma from_dict_one_policy_witness :
  exists t,
    PeriodicTask_from_dict "redbeat:" foo_definition = Ok t /\
    one_policy t /\ PeriodicTask_clean t = Ok tt.
Proof.
  eexists. split; [vm_compute; reflexivity|].
  split; apply (from_dict_one_policy "redbeat:" foo_definition);
    vm_compute; reflexivity.
Defined.

Lemma from_dict_copies_keys_aux prefix d t k v :
  PeriodicTask_from_dict prefix d = Ok t ->
  k ∉ not_copied ->
  subscript d k = Ok v ->
  getattr t k = AVal v.
Proof.
  intros H Hk Hv.
  destruct (from_dict_inv _ _ _ H) as (dd & pol & base & -> & _ & _ & ->).
  assert (dd !! k = Some v) as Hv'.
  { unfold subscript in Hv. destruct (dd !! k); by simplify_eq. }
  clear Hv. rename Hv' into Hv.
  unfold getattr. cbn [dict].
  rewrite lookup_union, lookup_fmap, map_lookup_filter, Hv. simpl.
  rewrite option_guard_True by done. simpl.
  by destruct (base !! k).
Qed.

(** Every key of the dictionary other than [interval], [crontab] and
    [schedule] becomes an attribute with the dictionary's value; in
    particular the record's name is the stored name as it is, the
    prefix is not put in front of it a second time. *)
Theorem from_dict_copies_keys prefix d t k v :
  PeriodicTask_from_dict prefix d = Ok t ->
  k ∉ not_copied ->
  subscript d k = Ok v ->
  getattr t k = AVal v.
Proof. apply from_dict_copies_keys_aux. Qed.

Lemma from_dict_copies_keys_witness :
  exists t,
    PeriodicTask_from_dict "redbeat:" foo_definition = Ok t /\
    getattr t "name" = AVal (PStr "redbeat:foo").
Proof.
  eexists. split; [vm_compute; reflexivity|].
  apply (from_dict_copies_keys "redbeat:" foo_definition _ "name" (PStr "redbeat:foo")).
  - vm_compute. reflexivity.
  - apply (bool_decide_unpack _). vm_compute. exact I.
  - vm_compute. reflexivity.
Defined.

(** A dictionary with a name and a task but neither an [interval] nor a
    [crontab] is not rejected by a validation error: [from_dict] fails
    on its local variable [schedule], which was never bound. *)
Theorem from_dict_without_policy prefix dd nm ta :
  dd !! "name" = Some nm -> dd !! "task" = Some ta ->
  truthy (dict_get dd "interval") = false ->
  truthy (dict_get dd "crontab") = false ->
  PeriodicTask_from_dict prefix (PDict dd) = Raise (UnboundLocalError "schedule").
Proof.
  intros Hn Ht Hi Hc. unfold PeriodicTask_from_dict.
  rewrite Hi, Hc. unfold subscript. by rewrite Hn, Ht.
Qed.

Lemma from_dict_without_policy_witness :
  PeriodicTask_from_dict "redbeat:" bad_definition
  = Raise (UnboundLocalError "schedule").
Proof.
  apply (from_dict_without_policy "redbeat:" _ (PStr "redbeat:a") (PStr "tasks.add"));
    vm_compute; reflexivity.
Defined.

(** A definition that lacks its task raises [KeyError], the exception the
    bulk loops take for a record that is gone: the seeding loop passes
    such a record over without a word and leaves the store as it is. *)
Theorem record_without_task_is_taken_for_missing prefix re key dd h w pol :
  rdb_fault w = None ->
  rdb_keys w !! key = Some (RHash h) ->
  h !! "periodic" = Some (json_dumps (PDict dd)) ->
  dd !! "interval" = Some (PDict pol) ->
  is_Some (pol !! "every") -> is_Some (pol !! "period") ->
  truthy (dict_get dd "crontab") = false ->
  is_Some (dd !! "name") ->
  dd !! "task" = None ->
  PeriodicTask_from_key prefix key w = (Raise (KeyError "task"), w) /\
  load_task prefix re key w = (Ok tt, w).
Proof.
  intros Hf Hk Hp Hi [e He] [p Hpe] Hc [nm Hn] Ht.
  assert (PeriodicTask_from_key prefix key w = (Raise (KeyError "task"), w)) as Hfrom.
  { unfold PeriodicTask_from_key, bind.
    rewrite (load_after_read key w (Some (json_dumps (PDict dd))) w).
    2:{ unfold rdb.hget, command. by rewrite Hf, Hk, Hp. }
    simpl. unfold lift, PeriodicTask_from_dict.
    assert (truthy (dict_get dd "interval") = true) as ->.
    { unfold dict_get. rewrite Hi. simpl.
      rewrite bool_decide_eq_false_2; [done|].
      intros ->. by rewrite lookup_empty in He. }
    rewrite Hc. unfold subscript. rewrite Hi. cbn [rbind].
    rewrite He, Hpe. cbn [rbind]. by rewrite Hn, Ht. }
  split; [done|].
  unfold load_task, bind, try_except. rewrite Hfrom. done.
Qed.

Lemma record_without_task_is_taken_for_missing_witness :
  PeriodicTask_from_key "redbeat:" "redbeat:notask" taskless_world
    = (Raise (KeyError "task"), taskless_world) /\
  load_task "redbeat:" sample_remaining "redbeat:notask" taskless_world
    = (Ok tt, taskless_world).
Proof.
  apply (record_without_task_is_taken_for_missing "redbeat:" sample_remaining
           "redbeat:notask" taskless_fields
           {[ "periodic" := json_dumps (PDict taskless_fields) ]}
           taskless_world every_minute).
  - reflexivity.
  - vm_compute. reflexivity.
  - vm_compute. reflexivity.
  - vm_compute. reflexivity.
  - eexists. vm_compute. reflexivity.
  - eexists. vm_compute. reflexivity.
  - vm_compute. reflexivity.
  - eexists. vm_compute. reflexivity.
  - vm_compute. reflexivity.
Defined.

(** ** Deleting a record *)

(** [delete] puts the name among the pending deletes and removes the
    whole key: afterwards the record is not found, its run state is gone
    as well, while the index and the pending updates are as before. *)
Theorem delete_then_not_found (self : PeriodicTask) (w : world) (n : string) :
  getattr self "name" = AVal (PStr n) ->
  rdb_fault w = None ->
  PeriodicTask_delete self w = (Ok tt, deleted_world w n) /\
  PeriodicTask_load n (deleted_world w n)
    = (Raise (KeyError n), deleted_world w n) /\
  RedBeatSchedulerEntry_load n (deleted_world w n)
    = (Ok (PDict ∅), deleted_world w n).
Proof.
  intros Hn Hf. split; [|split].
  - unfold PeriodicTask_delete, bind, lift. rewrite Hn. simpl.
    rewrite sadd_ok by done. unfold rdb.delete, command, deleted_world. simpl.
    by rewrite Hf.
  - apply load_no_data; [done|]. left. apply lookup_delete_eq.
  - unfold RedBeatSchedulerEntry_load, bind, try_except, rdb.hget, command.
    simpl. rewrite Hf. by rewrite lookup_delete_eq.
Qed.

Lemma delete_then_not_found_witness :
  PeriodicTask_delete bar_task bar_saved = (Ok tt, deleted_world bar_saved "redbeat:bar") /\
  PeriodicTask_load "redbeat:bar" (deleted_world bar_saved "redbeat:bar")
    = (Raise (KeyError "redbeat:bar"), deleted_world bar_saved "redbeat:bar") /\
  RedBeatSchedulerEntry_load "redbeat:bar" (deleted_world bar_saved "redbeat:bar")
    = (Ok (PDict ∅), deleted_world bar_saved "redbeat:bar").
Proof.
  apply (delete_then_not_found bar_task bar_saved "redbeat:bar").
  - reflexivity.
  - vm_compute. reflexivity.
Defined.

(** ** The definition and the run state do not disturb each other *)

Lemma entry_load_hash n w h :
  rdb_fault w = None -> rdb_keys w !! n = Some (RHash h) ->
  RedBeatSchedulerEntry_load n w =
    (match h !! "meta" with
     | Some (Marshal v) => Ok v
     | Some (Text s) => if String.eqb s "" then Ok (PDict ∅)
                        else Raise (ValueError "No JSON object could be decoded")
     | None => Ok (PDict ∅)
     end, w).
Proof.
  intros Hf Hk. unfold RedBeatSchedulerEntry_load, bind, try_except, rdb.hget, command.
  rewrite Hf, Hk. simpl. destruct (h !! "meta") as [[v|s]|]; simpl; try done.
  by destruct (String.eqb s "").
Qed.

Lemma bind_inv {A B} (c : M A) (k : A -> M B) w b w' :
  bind c k w = (Ok b, w') ->
  exists a w1, c w = (Ok a, w1) /\ k a w1 = (Ok b, w').
Proof.
  unfold bind. destruct (c w) as [[a|e] w1]; [eauto|discriminate].
Qed.

Lemma lift_inv {A} (r : result A) w a w' :
  lift r w = (Ok a, w') -> r = Ok a /\ w' = w.
Proof. unfold lift. by intros [= -> ->]. Qed.

Lemma command_inv {A} (body : M A) w r w' :
  command body w = (Ok r, w') -> rdb_fault w = None /\ body w = (Ok r, w').
Proof. unfold command. destruct (rdb_fault w); [discriminate|done]. Qed.

Lemma save_inv (self : PeriodicTask) (w w' : world) (n : string) :
  getattr self "name" = AVal (PStr n) ->
  PeriodicTask_save self w = (Ok tt, w') ->
  exists h raw,
    rdb_fault w = None /\ hash_at w n = Some h /\
    w' = mkWorld (<[ n := RHash (<[ "periodic" := raw ]> h) ]> (rdb_keys w))
                 (rdb_deletes w ∖ {[ n ]}) ({[ n ]} ∪ rdb_updates w)
                 (rdb_schedule w) (rdb_fault w) (logger w) (clock w).
Proof.
  intros Hn H. unfold PeriodicTask_save in H.
  apply bind_inv in H as (? & w1 & Hc & H). apply lift_inv in Hc as [_ ->].
  apply bind_inv in H as (sd1 & w1 & Hc & H).
  assert (w1 = w) as ->.
  { destruct (dict_truthy _ _); [|by injection Hc].
    apply bind_inv in Hc as (? & w2 & Hc & Hr). apply lift_inv in Hc as [_ ->].
    by injection Hr. }
  clear Hc.
  apply bind_inv in H as (sd2 & w1 & Hc & H).
  assert (w1 = w) as ->.
  { destruct (dict_truthy _ _); [|by injection Hc].
    apply bind_inv in Hc as (? & w2 & Hc & Hr). apply lift_inv in Hc as [_ ->].
    by injection Hr. }
  clear Hc.
  apply bind_inv in H as (n' & w1 & Hc & H). apply lift_inv in Hc as [Hk ->].
  rewrite Hn in Hk. injection Hk as <-.
  apply bind_inv in H as ([] & w1 & Hc & H).
  apply command_inv in Hc as [Hf Hc]. injection Hc as <-.
  apply bind_inv in H as (raw & w1 & Hc & H). apply lift_inv in Hc as [_ ->].
  apply bind_inv in H as ([] & w1 & Hc & H).
  apply command_inv in Hc as [_ Hc]. cbn [put_set get_set rdb_keys] in Hc.
  apply command_inv in H as [_ H].
  unfold hash_at.
  destruct (rdb_keys w !! n) as [[?|h]|] eqn:Hkey; [discriminate| |].
  - exists h, raw. injection Hc as <-. injection H as <-. done.
  - exists ∅, raw. injection Hc as <-. injection H as <-. done.
Qed.

(** Saving a record writes its definition only: the run state read back
    afterwards is the one that was there before. *)
Theorem save_keeps_run_state (self : PeriodicTask) (w w' : world) (n : string) :
  getattr self "name" = AVal (PStr n) ->
  PeriodicTask_save self w = (Ok tt, w') ->
  (RedBeatSchedulerEntry_load n w').1 = (RedBeatSchedulerEntry_load n w).1.
Proof.
  intros Hn H.
  destruct (save_inv self w w' n Hn H) as (h & raw & Hf & Hh & ->).
  unfold RedBeatSchedulerEntry_load, bind, try_except, rdb.hget, command.
  cbn [rdb_fault rdb_keys]. rewrite Hf, lookup_insert_eq.
  rewrite lookup_insert_ne by done.
  unfold hash_at in Hh.
  destruct (rdb_keys w !! n) as [[?|h']|]; simplify_eq; unfold ret; simpl;
    rewrite ?lookup_empty; [|done].
  by destruct (negb (raw_truthy (h !! "meta"))).
Qed.

Lemma save_keeps_run_state_witness :
  exists w',
    PeriodicTask_save foo_task after_run = (Ok tt, w') /\
    (RedBeatSchedulerEntry_load "redbeat:foo" w').1 = Ok (run_state 31000000 8).
Proof.
  eexists. split; [vm_compute; reflexivity|].
  rewrite (save_keeps_run_state foo_task after_run _ "redbeat:foo").
  - vm_compute. reflexivity.
  - reflexivity.
  - vm_compute. reflexivity.
Defined.

Lemma reserve_inv re (entry e' : RedBeatSchedulerEntry) (w w' : world) (n : string) :
  name entry = AVal (PStr n) ->
  RedBeatScheduler_reserve re entry w = (Ok e', w') ->
  exists h raw due,
    rdb_fault w = None /\ hash_at w n = Some h /\
    w' = mkWorld (<[ n := RHash (<[ "meta" := raw ]> h) ]> (rdb_keys w))
                 (rdb_deletes w) (rdb_updates w)
                 (<[ n := due ]> (rdb_schedule w))
                 (rdb_fault w) (logger w) (clock w).
Proof.
  intros Hn H. unfold RedBeatScheduler_reserve in H.
  apply bind_inv in H as (e1 & w1 & Hnext & H).
  unfold RedBeatSchedulerEntry_next in Hnext.
  apply bind_inv in Hnext as (now & w2 & Hc & Hnext). injection Hc as <- <-.
  apply bind_inv in Hnext as (count & w2 & Hc & Hnext).
  apply lift_inv in Hc as [_ ->].
  apply bind_inv in Hnext as ([] & w2 & Hsave & Hnext).
  injection Hnext as <- <-.
  unfold RedBeatSchedulerEntry_save in Hsave. cbn [name] in Hsave.
  apply bind_inv in Hsave as (k & w3 & Hc & Hsave).
  apply lift_inv in Hc as [Hk ->]. rewrite Hn in Hk. injection Hk as <-.
  apply command_inv in Hsave as [Hf Hsave].
  apply bind_inv in H as (due & w3 & Hdue & H).
  assert (w3 = w2) as ->.
  { unfold RedBeatSchedulerEntry_due_at in Hdue. cbn [last_run_at] in Hdue.
    by injection Hdue. }
  clear Hdue.
  apply bind_inv in H as (k & w3 & Hc & H).
  apply lift_inv in Hc as [Hk ->]. cbn [name] in Hk. rewrite Hn in Hk.
  injection Hk as <-.
  apply bind_inv in H as ([] & w3 & Hz & H). injection H as _ <-.
  apply command_inv in Hz as [_ Hz].
  unfold hash_at.
  destruct (rdb_keys w !! n) as [[?|h]|] eqn:Hkey; [discriminate| |].
  - exists h. eexists. exists due. injection Hsave as <-. injection Hz as <-. done.
  - exists ∅. eexists. exists due. injection Hsave as <-. injection Hz as <-. done.
Qed.

(** Reserving an entry writes its run state only: the definition read
    back afterwards is the one that was there before. *)
Theorem reserve_keeps_definition re (entry e' : RedBeatSchedulerEntry)
    (w w' : world) (n : string) :
  name entry = AVal (PStr n) ->
  RedBeatScheduler_reserve re entry w = (Ok e', w') ->
  (PeriodicTask_load n w').1 = (PeriodicTask_load n w).1.
Proof.
  intros Hn H.
  destruct (reserve_inv re entry e' w w' n Hn H) as (h & raw & due & Hf & Hh & ->).
  unfold hash_at in Hh.
  assert (rdb.hget n "periodic" w = (Ok (h !! "periodic"), w)) as H1.
  { unfold rdb.hget, command. rewrite Hf.
    destruct (rdb_keys w !! n) as [[?|h']|]; simplify_eq; done. }
  rewrite (load_after_read _ _ _ _ H1).
  erewrite load_after_read.
  2:{ unfold rdb.hget, command. cbn [rdb_fault rdb_keys].
      rewrite Hf, lookup_insert_eq. rewrite lookup_insert_ne by done. reflexivity. }
  by destruct (h !! "periodic") as [[?|?]|]; simpl; try destruct (String.eqb _ _).
Qed.

Lemma reserve_keeps_definition_witness :
  (PeriodicTask_load "redbeat:foo"
     (RedBeatScheduler_reserve sample_remaining foo_entry before_bar).2).1
  = (PeriodicTask_load "redbeat:foo" before_bar).1.
Proof.
  apply (reserve_keeps_definition sample_remaining foo_entry
           (advanced foo_entry 1000000 7) before_bar _ "redbeat:foo").
  - reflexivity.
  - vm_compute. reflexivity.
Defined.

(** ** The run state of an entry *)

(** The run state that [save] writes is the one a later entry for the
    same record starts from: same run count, same last run. *)
Theorem run_state_round_trip (self : RedBeatSchedulerEntry) (t : PeriodicTask)
    (s : celery_schedules) (w : world) (n : string) (h : gmap string wire) :
  name self = AVal (PStr n) ->
  rdb_fault w = None -> hash_at w n = Some h ->
  getattr t "name" = AVal (PStr n) ->
  PeriodicTask_schedule t = Ok s ->
  exists w' e,
    RedBeatSchedulerEntry_save self w = (Ok tt, w') /\
    RedBeatSchedulerEntry_init t w' = (Ok e, w') /\
    total_run_count e = total_run_count self /\
    last_run_at e = last_run_at self.
Proof.
  intros Hn Hf Hh Ht Hs.
  eexists. eexists. split; [|split; [|split]].
  - unfold RedBeatSchedulerEntry_save, bind, lift. rewrite Hn. cbn [as_key].
    erewrite hset_ok; [reflexivity|done|exact Hh].
  - unfold RedBeatSchedulerEntry_init, bind, lift. rewrite Hs, Ht. cbn [as_key].
    erewrite entry_load_hash; [|done|apply lookup_insert_eq].
    rewrite lookup_insert_eq. unfold json_dumps. cbn [meta_get].
    unfold _default_now, ret. reflexivity.
  - cbn [total_run_count]. rewrite lookup_insert_ne by done.
    by rewrite lookup_singleton_eq.
  - cbn [last_run_at]. by rewrite lookup_insert_eq.
Qed.

Lemma run_state_round_trip_witness :
  exists w' e,
    RedBeatSchedulerEntry_save foo_entry empty_world = (Ok tt, w') /\
    RedBeatSchedulerEntry_init foo_task w' = (Ok e, w') /\
    total_run_count e = PInt 7 /\ last_run_at e = PDate 1000000.
Proof.
  apply (run_state_round_trip foo_entry foo_task (celery_schedule 30000000)
           empty_world "redbeat:foo" ∅); vm_compute; reflexivity.
Defined.

(** An entry for a record that has no run state yet (no key, no [meta]
    field, or a bare legacy key) starts with a run count of 0 and the
    current time as its last run, and building it writes nothing. *)
Theorem first_entry_defaults (t : PeriodicTask) (s : celery_schedules)
    (w : world) (n : string) :
  rdb_fault w = None ->
  getattr t "name" = AVal (PStr n) ->
  PeriodicTask_schedule t = Ok s ->
  (rdb_keys w !! n = None \/
   (exists h, rdb_keys w !! n = Some (RHash h) /\ raw_truthy (h !! "meta") = false) \/
   (exists v, rdb_keys w !! n = Some (RString v))) ->
  exists e,
    RedBeatSchedulerEntry_init t w = (Ok e, w) /\
    total_run_count e = PInt 0 /\ last_run_at e = PDate (clock w) /\
    schedule e = s /\ _task e = t.
Proof.
  intros Hf Ht Hs Hkey.
  assert (RedBeatSchedulerEntry_load n w = (Ok (PDict ∅), w)) as Hload.
  { unfold RedBeatSchedulerEntry_load, bind, try_except, rdb.hget, command.
    rewrite Hf.
    destruct Hkey as [-> | [(h & -> & Hm) | (v & ->)]]; simpl; try done.
    by rewrite Hm. }
  eexists. split.
  { unfold RedBeatSchedulerEntry_init, bind, lift. rewrite Hs, Ht. cbn [as_key].
    rewrite Hload. reflexivity. }
  done.
Qed.

Lemma first_entry_defaults_witness :
  exists e,
    RedBeatSchedulerEntry_init foo_task legacy_foo = (Ok e, legacy_foo) /\
    total_run_count e = PInt 0 /\ last_run_at e = PDate 5000000 /\
    schedule e = celery_schedule 30000000 /\ _task e = foo_task.
Proof.
  apply (first_entry_defaults foo_task (celery_schedule 30000000) legacy_foo
           "redbeat:foo").
  - reflexivity.
  - reflexivity.
  - vm_compute. reflexivity.
  - right. right. eexists. vm_compute. reflexivity.
Defined.

(** ** Seeding from the configured schedule *)

Lemma reads_only_from_entry prefix ms name_ entry :
  reads_only (RedBeatSchedulerEntry_from_entry prefix ms name_ entry).
Proof.
  unfold RedBeatSchedulerEntry_from_entry.
  apply reads_only_bind.
  { destruct (conf_schedule_value entry); auto with reads_only. }
  intros ?.
  apply reads_only_bind; [apply reads_only_lift|intros ?].
  apply reads_only_bind; [apply reads_only_lift|intros ?].
  apply reads_only_bind; [apply reads_only_lift|intros ?].
  apply reads_only_bind; [apply reads_only_lift|intros ?].
  apply reads_only_entry_init.
Qed.

(** When [from_entry] raises for one configured entry, [update_from_dict]
    logs the error and then goes on with the configured dictionary in
    place of the entry: it fails on its [_task] attribute, and the
    entries that follow are never reached. *)
Theorem update_from_dict_stops_at_failure prefix re ms name_ entry rest w e :
  (RedBeatSchedulerEntry_from_entry prefix ms name_ entry w).1 = Raise e ->
  RedBeatScheduler_update_from_dict prefix re ms ((name_, entry) :: rest) w
  = (Raise (AttributeError "'dict' object has no attribute '_task'"),
     logged (log_error ADD_ENTRY_ERROR name_ e) w).
Proof.
  intros H. unfold RedBeatScheduler_update_from_dict. cbn [for_each].
  unfold bind at 1. unfold update_from_entry, bind, try_except.
  rewrite (reads_only_from_entry prefix ms name_ entry w) in H. cbn [fst] in H.
  rewrite (reads_only_from_entry prefix ms name_ entry w).
  rewrite H. done.
Qed.

Lemma update_from_dict_stops_at_failure_witness :
  RedBeatScheduler_update_from_dict "redbeat:" sample_remaining (fun s => s)
    broken_conf empty_world
  = (Raise (AttributeError "'dict' object has no attribute '_task'"),
     logged (log_error ADD_ENTRY_ERROR "first" (KeyError "schedule")) empty_world).
Proof.
  apply (update_from_dict_stops_at_failure "redbeat:" sample_remaining (fun s => s)
           "first" (mkConf None {[ "task" := PStr "tasks.add" ]})).
  vm_compute. reflexivity.
Defined.

(** ** Constructing a record *)

(** The name of a new record is the configured prefix followed by the
    given name and, when a key is given, a colon and the key.  A record
    constructed with an [Interval] or a [Crontab] passes [clean]; one
    constructed with anything else has no policy, and saving it raises
    [ValidationError] without touching the store. *)
Theorem init_name_and_policy prefix (n : string) task_ sched key enabled
    task_args task_kwargs t :
  PeriodicTask_init prefix (PStr n) task_ sched key enabled task_args task_kwargs
  = Ok t ->
  (truthy key = false -> getattr t "name" = AVal (PStr (prefix ++ n))) /\
  (forall k, key = PStr k -> k <> "" ->
     getattr t "name" = AVal (PStr (prefix ++ n ++ ":" ++ k))) /\
  (is_policy sched = true -> PeriodicTask_clean t = Ok tt) /\
  (is_policy sched = false ->
   forall w, exists msg,
     PeriodicTask_save t w = (Raise (ValidationError msg), w)).
Proof.
  unfold PeriodicTask_init. intros H.
  assert (exists nm d0,
            t = mkTask (<[ "name" := AVal (PStr nm) ]>
                        (<[ "kwargs" := AVal task_kwargs ]>
                         (<[ "args" := AVal task_args ]> d0))) /\
            (truthy key = false -> nm = prefix ++ n) /\
            (forall k, key = PStr k -> k <> "" -> nm = prefix ++ n ++ ":" ++ k) /\
            d0 !! "interval" = (match sched with AInterval _ => Some sched | _ => None end) /\
            d0 !! "crontab" = (match sched with ACrontab _ => Some sched | _ => None end))
    as (nm & d0 & -> & Hn1 & Hn2 & Hi & Hc).
  { destruct (negb (truthy key)) eqn:Hk.
    - injection H as <-. eexists. eexists. split; [reflexivity|].
      split; [done|]. split.
      + intros k -> Hne. simpl in Hk. apply negb_true_iff, negb_false_iff in Hk.
        by apply String.eqb_eq in Hk.
      + destruct sched; split; reflexivity.
    - destruct key; try discriminate. injection H as <-.
      eexists. eexists. split; [reflexivity|].
      split; [intros Ht; by rewrite Ht in Hk|].
      split; [by intros k [= <-] _|].
      destruct sched; split; reflexivity. }
  assert (getattr (mkTask (<[ "name" := AVal (PStr nm) ]>
                        (<[ "kwargs" := AVal task_kwargs ]>
                         (<[ "args" := AVal task_args ]> d0)))) "interval"
          = match sched with AInterval _ => sched | _ => AVal PNone end) as Hgi.
  { unfold getattr. cbn [dict]. do 3 rewrite lookup_insert_ne by done.
    rewrite Hi. by destruct sched. }
  assert (getattr (mkTask (<[ "name" := AVal (PStr nm) ]>
                        (<[ "kwargs" := AVal task_kwargs ]>
                         (<[ "args" := AVal task_args ]> d0)))) "crontab"
          = match sched with ACrontab _ => sched | _ => AVal PNone end) as Hgc.
  { unfold getattr. cbn [dict]. do 3 rewrite lookup_insert_ne by done.
    rewrite Hc. by destruct sched. }
  split; [|split; [|split]].
  - intros Hk. unfold getattr. cbn [dict]. rewrite lookup_insert_eq.
    by rewrite Hn1.
  - intros k Hk Hne. unfold getattr. cbn [dict]. rewrite lookup_insert_eq.
    by rewrite (Hn2 k Hk Hne).
  - intros Hp. apply clean_one_policy. unfold one_policy. rewrite Hgi, Hgc.
    destruct sched; [discriminate|left|right]; done.
  - intros Hp w. apply save_rejects. right. rewrite Hgi, Hgc.
    by destruct sched.
Qed.

Lemma init_name_and_policy_witness :
  exists t,
    PeriodicTask_init "redbeat:" (PStr "foo") (PStr "tasks.add")
      (AVal (PInt 30)) (PStr "eu") (PBool true) (PList []) (PDict ∅) = Ok t /\
    getattr t "name" = AVal (PStr "redbeat:foo:eu") /\
    exists msg, PeriodicTask_save t empty_world
                = (Raise (ValidationError msg), empty_world).
Proof.
  eexists. split; [reflexivity|].
  pose proof (init_name_and_policy "redbeat:" "foo" (PStr "tasks.add")
                (AVal (PInt 30)) (PStr "eu") (PBool true) (PList []) (PDict ∅)
                _ eq_refl) as (_ & Hname & _ & Hsave).
  split.
  - apply (Hname "eu"); [reflexivity|discriminate].
  - apply Hsave. reflexivity.
Defined.

(** ** Loading never writes *)

(** Loading a record and building its entry leave the store and the log
    as they are, whether they succeed or raise. *)
Theorem from_key_never_writes prefix (task_name : string) (w : world) :
  (PeriodicTask_from_key prefix task_name w).2 = w /\
  (RedBeatSchedulerEntry_from_key prefix task_name w).2 = w.
Proof.
  split.
  - by rewrite (reads_only_from_key prefix task_name w).
  - by rewrite (reads_only_entry_from_key prefix task_name w).
Qed.

(** ** Reconciling again *)




(** ** The lower bound of the due query *)

Lemma entries_of_keys prefix l : forall w m w' k,
  entries_of prefix l w = (Ok m, w') -> is_Some (m !! k) -> k ∈ l.
Proof.
  induction l as [|x l IH]; intros w m w' k H Hk.
  - injection H as <- _. by rewrite lookup_empty in Hk; destruct Hk.
  - cbn [entries_of] in H.
    apply bind_inv in H as (e & w1 & _ & H).
    apply bind_inv in H as (m' & w2 & Hm & H). unfold ret in H.
    cbv beta in H. injection H as <- _.
    destruct (decide (k = x)) as [->|Hne]; [by left|].
    rewrite lookup_insert_ne in Hk by done. right. by apply (IH w1 m' w2).
Qed.

(** The due query asks for the scores from 0 to the current time: an
    index member with a negative score is never among the entries that
    [schedule] returns, although it lies before the current time. *)
Theorem schedule_skips_negative_scores prefix re (w w' : world) (k : string)
    (score : Z) entries :
  rdb_fault w = None ->
  nothing_pending w ->
  rdb_schedule w !! k = Some score ->
  score < 0 ->
  RedBeatScheduler_schedule prefix re w = Some (Ok entries, w') ->
  entries !! k = None.
Proof.
  intros Hf Hnp Hk Hneg H.
  unfold RedBeatScheduler_schedule in H.
  destruct (schedule_changed_ok w Hf) as (n & Hch & Hn).
  rewrite Hch in H. apply Hn in Hnp as ->. cbn [negb Nat.eqb] in H.
  injection H as H.
  unfold due_entries in H.
  apply bind_inv in H as (now & w1 & Hnow & H). unfold _default_now in Hnow.
  cbv beta in Hnow. injection Hnow as <- <-.
  apply bind_inv in H as (l & w1 & Hl & H).
  destruct (zrangebyscore_ok REDBEAT_SCHEDULE_KEY 0 (to_timestamp (clock w)) w Hf)
    as (l' & Hl' & Hmem).
  rewrite Hl' in Hl. injection Hl as <- <-.
  destruct (entries !! k) as [e|] eqn:He; [|done].
  assert (k ∈ l') as Hin.
  { apply (entries_of_keys prefix l' w entries w' k H). by rewrite He. }
  apply Hmem in Hin as (sc & Hsc & Hr). rewrite Hk in Hsc. injection Hsc as <-.
  lia.
Qed.

Lemma schedule_skips_negative_scores_witness :
  exists entries,
    RedBeatScheduler_schedule "redbeat:" sample_remaining early_world
      = Some (Ok entries, early_world) /\
    entries !! "redbeat:early" = None.
Proof.
  eexists. split; [vm_compute; reflexivity|].
  apply (schedule_skips_negative_scores "redbeat:" sample_remaining
           early_world early_world "redbeat:early" (-5)).
  - reflexivity.
  - split; reflexivity.
  - vm_compute. reflexivity.
  - lia.
  - vm_compute. reflexivity.
Defined.

(** ** Seeding the index from the store *)

Lemma entry_init_inv t w e w' :
  RedBeatSchedulerEntry_init t w = (Ok e, w') ->
  exists s, PeriodicTask_schedule t = Ok s /\ _task e = t /\
            name e = getattr t "name".
Proof.
  intros H. unfold RedBeatSchedulerEntry_init in H.
  apply bind_inv in H as (s & w1 & Hs & H). apply lift_inv in Hs as [Hs ->].
  apply bind_inv in H as (k & w1 & _ & H).
  apply bind_inv in H as (meta & w2 & _ & H).
  apply bind_inv in H as (count & w3 & _ & H).
  apply bind_inv in H as (now & w4 & _ & H).
  apply bind_inv in H as (last & w5 & _ & H).
  unfold ret in H. cbv beta in H. injection H as <- _. eauto.
Qed.








(** ** Listing the records *)








(** ** Entries built from the configured schedule *)




Lemma from_dict_plain_attrs prefix d t :
  PeriodicTask_from_dict prefix d = Ok t -> plain_attrs t.
Proof.
  intros H.
  destruct (from_dict_inv _ _ _ H)
    as (dd & pol & base & -> & Hpol & (n & ta & _ & _ & Hinit) & ->).
  unfold plain_attrs. cbn [dict]. intros k a Hk Hki Hkc.
  rewrite lookup_union, lookup_fmap in Hk.
  destruct (filter (fun kv : string * pyval => kv.1 ∉ not_copied) dd !! k) as [v|];
    simpl in Hk.
  - destruct (base !! k); simpl in Hk; by injection Hk as <-.
  - rewrite (left_id None _) in Hk.
    unfold PeriodicTask_init in Hinit. simpl in Hinit. injection Hinit as <-.
    destruct pol;
      repeat (apply lookup_insert_Some in Hk as [[<- <-]|[? Hk]];
              [first [done | by destruct Hki | by destruct Hkc]|]);
      apply lookup_singleton_Some in Hk as [<- <-]; done.
Qed.

Lemma from_dict_is_valid prefix d t :
  PeriodicTask_from_dict prefix d = Ok t -> one_policy t.
Proof.
  intros H.
  destruct (from_dict_inv _ _ _ H)
    as (dd & pol & base & -> & Hpol & (n & ta & _ & _ & Hinit) & ->).
  destruct (init_base _ _ _ _ _ Hinit) as [Hi Hc].
  unfold one_policy, getattr. cbn [dict].
  rewrite !not_copied_lookup by (unfold not_copied; set_solver).
  rewrite Hi, Hc.
  destruct Hpol as [(i & -> & _)|(c & -> & _)]; [left|right]; done.
Qed.

Lemma from_entry_task prefix ms name_ entry w e w' :
  RedBeatSchedulerEntry_from_entry prefix ms name_ entry w = (Ok e, w') ->
  (exists d, PeriodicTask_from_dict prefix d = Ok (_task e)) /\
  name e = getattr (_task e) "name" /\ w' = w.
Proof.
  intros H.
  pose proof (reads_only_from_entry prefix ms name_ entry w) as Hr.
  rewrite H in Hr. injection Hr as _ ->.
  unfold RedBeatSchedulerEntry_from_entry in H. cbv zeta in H.
  apply bind_inv in H as (s & w1 & _ & H).
  apply bind_inv in H as (q & w2 & _ & H).
  apply bind_inv in H as (ex & w3 & _ & H).
  apply bind_inv in H as (rk & w4 & _ & H).
  apply bind_inv in H as (t & w5 & Ht & H).
  apply lift_inv in Ht as [Ht ->].
  destruct (entry_init_inv _ _ _ _ H) as (s' & _ & -> & Hn).
  split; [eauto|]. split; [exact Hn|done].
Qed.

Lemma one_policy_unicode t :
  one_policy t -> PeriodicTask_unicode t = Ok (str_attr (getattr t "name")).
Proof.
  unfold PeriodicTask_unicode.
  intros [[Hp Hno]|[Hp Hno]].
  - by rewrite (is_policy_truthy _ Hp).
  - rewrite Hno. by rewrite (is_policy_truthy _ Hp).
Qed.

(** For a configured entry that builds, [update_from_dict] saves the
    record, takes its name out of the pending updates again (and out of
    the pending deletes), puts it into the index at its due time, and
    goes on with the entries that follow. *)
Theorem update_from_dict_seeds_entry prefix re ms (name_ : string)
    (entry : conf_entry) rest (w : world) e n h t0 :
  RedBeatSchedulerEntry_from_entry prefix ms name_ entry w = (Ok e, w) ->
  getattr (_task e) "name" = AVal (PStr n) ->
  last_run_at e = PDate t0 ->
  rdb_fault w = None -> hash_at w n = Some h ->
  exists d,
    flattened (_task e) d /\
    RedBeatScheduler_update_from_dict prefix re ms ((name_, entry) :: rest) w
    = RedBeatScheduler_update_from_dict prefix re ms rest
        (mkWorld (<[ n := RHash (<[ "periodic" := json_dumps (PDict d) ]> h) ]> (rdb_keys w))
                 (rdb_deletes w ∖ {[ n ]})
                 (rdb_updates w ∖ {[ n ]})
                 (<[ n := to_timestamp (t0 + re (schedule e) t0 (clock w)) ]> (rdb_schedule w))
                 (rdb_fault w) (logger w ++ [log_debug_task n]) (clock w)).
Proof.
  intros Hfrom Hname Hlast Hf Hh.
  destruct (from_entry_task _ _ _ _ _ _ _ Hfrom) as ([d0 Hd0] & Hn & _).
  pose proof (from_dict_is_valid _ _ _ Hd0) as Hone.
  pose proof (from_dict_plain_attrs _ _ _ Hd0) as Hplain.
  destruct (save_writes (_task e) w n h Hone Hplain Hname Hf Hh) as (d & Hfl & Hsave).
  exists d. split; [done|].
  unfold RedBeatScheduler_update_from_dict. cbn [for_each]. unfold bind at 1.
  assert (update_from_entry prefix re ms (name_, entry) w =
    (Ok tt,
     mkWorld (<[ n := RHash (<[ "periodic" := json_dumps (PDict d) ]> h) ]> (rdb_keys w))
                 (rdb_deletes w ∖ {[ n ]})
                 (rdb_updates w ∖ {[ n ]})
                 (<[ n := to_timestamp (t0 + re (schedule e) t0 (clock w)) ]> (rdb_schedule w))
                 (rdb_fault w) (logger w ++ [log_debug_task n]) (clock w))) as ->; [|done].
  unfold update_from_entry, bind, try_except. rewrite Hfrom. unfold ret.
  rewrite Hsave. unfold lift. rewrite Hn, Hname. cbn [as_key].
  rewrite srem_ok by done. cbn [put_set get_set saved_world rdb_updates].
  rewrite (one_policy_unicode _ Hone), Hname. cbn [str_attr]. unfold emit.
  unfold RedBeatSchedulerEntry_due_at. rewrite Hlast.
  unfold bind, _default_now, ret, lift. cbn [clock]. rewrite ?Hn, ?Hname. cbn [as_key].
  rewrite zadd_ok by done. cbn [set_schedule rdb_keys rdb_deletes rdb_updates
    rdb_schedule rdb_fault logger clock].
  assert (({[ n ]} ∪ rdb_updates w) ∖ {[ n ]} = rdb_updates w ∖ {[ n ]}) as ->;
    [|reflexivity].
  apply leibniz_equiv, set_equiv. intros y.
  rewrite !elem_of_difference, elem_of_union, elem_of_singleton. tauto.
Qed.

Lemma update_from_dict_seeds_entry_witness :
  exists w',
    RedBeatScheduler_update_from_dict "redbeat:" sample_remaining (fun s => s)
      [("ping", backwards_conf)] pending_ping = (Ok tt, w') /\
    rdb_updates w' = ∅ /\ rdb_deletes w' = ∅ /\
    rdb_schedule w' !! "redbeat:ping" = Some 7.
Proof.
  destruct (update_from_dict_seeds_entry "redbeat:" sample_remaining (fun s => s)
              "ping" backwards_conf [] pending_ping ping_entry
              "redbeat:ping" ∅ 7000000) as (d & _ & Hrun).
  - vm_compute. reflexivity.
  - vm_compute. reflexivity.
  - vm_compute. reflexivity.
  - reflexivity.
  - reflexivity.
  - eexists. split; [exact Hrun|]. cbn [rdb_updates rdb_deletes rdb_schedule].
    split; [|split].
    + vm_compute. reflexivity.
    + vm_compute. reflexivity.
    + vm_compute. reflexivity.
Defined.

(** ** Errors of the store *)


